(** * YaMicroBatcher: a model of [src/ya_micro_batcher.ts]

    The class [YaMicroBatcher<T>] collects submitted jobs in an
    insertion-ordered [Map] and hands them in batches to a caller-supplied
    asynchronous [batchProcessor].  The development below embeds

    - the constructor (defaults and caps of the configuration),
    - the methods [submit], [processingShedule], [processJobs], [shutdown],
      [stop], [forceProcess], [jobCount], [jobStatus], [isMemoryLimitReached],
    - the part of the JavaScript host the class relies on: timers
      ([setTimeout]/[clearTimeout]), the promise returned by [batchProcessor],
      [console.error] and the unhandled-rejection report.

    JavaScript runs the class on one thread: a method body runs without
    interruption up to its first [await].  Every method is therefore cut at
    its [await]s; the pieces are the transitions of a machine whose inputs
    are the calls of the public methods, the expiry of a timer and the
    settlement of a [batchProcessor] promise.  The only [await] that
    suspends on something outside the class is the one in [processJobs],
    [await this.batchProcessor(jobs).then(...)].  What follows it is two
    jobs of the host's queue: first the reaction to the promise of
    [batchProcessor] (the [then] callback when it is fulfilled), then the
    rest of [processJobs] with what its caller does with the outcome.
    Between the two other jobs can run, a reaction of the caller to the
    same promise among them, so they are two transitions.  The promise a
    method returns is settled when its body ends; the code that waits for
    it runs in later jobs, after those already queued ([turn] and
    [until_caller_resumes] give that order for a caller that submits some
    jobs and awaits one of the calls).  [batchProcessor] is
    taken to return a promise, as its type says; the promise may be
    fulfilled with any array of results or rejected with any reason, at any
    time.

    Numbers.  [batchSize] and [batchTimeout] are integers ([Z]); an absent
    configuration field is [None] ([undefined]).  Memory sizes are megabytes,
    a byte count divided twice by 1024; they are kept as exact rationals
    ([Q]), which is what the floating-point computation yields as long as
    the byte counts stay below 2^53. *)

From Stdlib Require Import List ZArith QArith Qminmax Bool String Lia Arith.
Import ListNotations.

Set Implicit Arguments.
Local Close Scope Q_scope.

(** ** JavaScript [Map]: insertion-ordered, unique keys *)

Module JsMap.

Definition t (V : Type) : Type := list (string * V).

Definition empty {V : Type} : t V := [].

Definition size {V : Type} (m : t V) : nat := List.length m.

Fixpoint get {V : Type} (k : string) (m : t V) : option V :=
  match m with
  | [] => None
  | (k', v) :: m' => if String.eqb k k' then Some v else get k m'
  end.

Fixpoint has {V : Type} (k : string) (m : t V) : bool :=
  match m with
  | [] => false
  | (k', _) :: m' => if String.eqb k k' then true else has k m'
  end.

(** [m.set(k, v)]: an existing key keeps its position, a new key goes last. *)
Fixpoint set {V : Type} (k : string) (v : V) (m : t V) : t V :=
  match m with
  | [] => [(k, v)]
  | (k', v') :: m' =>
      if String.eqb k k' then (k', v) :: m' else (k', v') :: set k v m'
  end.

Definition values {V : Type} (m : t V) : list V := List.map snd m.

Definition keys {V : Type} (m : t V) : list string := List.map fst m.

End JsMap.

(** ** Types of the module *)

Inductive JobStatus : Type :=
| SUBMITTED | FAILED | PROCESSED | TIMEOUT | NOT_FOUND.

Record AckJobSubmitted : Type := mkAck {
  ack_status : JobStatus;
  ack_message : option string;
  ack_jobId : string
}.

(** What a constructor call yields: the object, or a thrown [Error]. *)
Inductive thrown (A : Type) : Type :=
| Returns (a : A)
| Throws (message : string).
Arguments Returns {A} a.
Arguments Throws {A} message.

(** ** Truthiness and the operators of the constructor *)

Module Js.

(** A number or [undefined] used as a condition: [0] and [undefined] are
    falsy. *)
Definition truthyZ (x : option Z) : bool :=
  match x with
  | Some n => negb (n =? 0)%Z
  | None => false
  end.

Definition truthyQ (x : option Q) : bool :=
  match x with
  | Some q => negb (Qeq_bool q 0%Q)
  | None => false
  end.

(** [x > n]: [undefined] converts to [NaN] and every comparison with [NaN]
    is [false]. *)
Definition gtZ (x : option Z) (n : Z) : bool :=
  match x with
  | Some v => (n <? v)%Z
  | None => false
  end.

Definition gtQ (x : option Q) (n : Q) : bool :=
  match x with
  | Some v => negb (Qle_bool v n)
  | None => false
  end.

(** [a ?? b] where [a] is a number or [undefined] and [b] a boolean: the
    value is a number or a boolean. *)
Definition coalesce_num_bool (a : option Z) (b : bool) : Z + bool :=
  match a with
  | Some n => inl n
  | None => inr b
  end.

Definition truthy_num_bool (v : Z + bool) : bool :=
  match v with
  | inl n => negb (n =? 0)%Z
  | inr b => b
  end.

(** [a ?? b] on booleans. *)
Definition coalesce_bool (a : option bool) (b : bool) : bool :=
  match a with
  | Some x => x
  | None => b
  end.

End Js.

Section Batcher.

(** The payload type [T] of the jobs. *)
Variable T : Type.

(** The caller-supplied [batchProcessor].  The class only stores it and
    calls it; what the call does is the caller's business, so the callback
    is an opaque value here, its call an observable output and the
    settlement of the promise it returns an input of the machine. *)
Variable Processor : Type.

(** The reason a [batchProcessor] promise is rejected with. *)
Variable Reason : Type.

(** [Buffer.byteLength(JSON.stringify(jobs), 'utf8')] for an array of
    payloads; [None] when [JSON.stringify] throws its [TypeError] (a
    payload with a cycle, a [BigInt]). *)
Variable byteLength_json : list T -> option Z.

(** [randomUUID()] of node's [crypto]: the value the [n]-th call returns. *)
Variable randomUUID : nat -> string.

Record JobResult : Type := mkJobResult {
  jr_status : JobStatus;
  jr_message : option string;
  jr_jobId : string;
  jr_result : option T
}.

Record YaMicroBatcherConfig : Type := mkConfig {
  cfg_batchSize : option Z;
  cfg_batchTimeout : option Z;
  cfg_batchProcessor : option Processor;
  cfg_returnAck : option bool;
  cfg_memoryLimit : option Q;
  cfg_autoProcessOnMemoryLimit : option bool
}.

(** The private fields of the class.  [batchTimeout] can hold [undefined]
    (see the constructor), [timeoutId] is [null] or a timer handle. *)
Record YaMicroBatcher : Type := mkBatcher {
  batchProcessor : Processor;
  batchSize : Z;
  batchTimeout : option Z;
  memoryLimit : Q;
  autoProcessOnMemoryLimit : bool;
  currentMemory : Q;
  jobs : JsMap.t T;
  finishedJobs : JsMap.t (option T);
  timeoutId : option nat;
  shutDown : bool;
  isProcessing : bool;
  returnAck : bool
}.

(** *** utils: [calculateMemory], [isMemoryLimitReached] *)

(** [None]: the call throws. *)
Definition calculateMemory (js : list T) : option Q :=
  match byteLength_json js with
  | Some n => Some (inject_Z n / 1024 / 1024)%Q
  | None => None
  end.

Definition utils_isMemoryLimitReached (js : list T) (limit : Q) : option bool :=
  match calculateMemory js with
  | Some m => Some (Qle_bool limit m)
  | None => None
  end.

(** *** constructor *)

(** [config.batchSize ? config.batchSize > 1000 ? 1000 : config.batchSize : 10] *)
Definition init_batchSize (c : YaMicroBatcherConfig) : Z :=
  if Js.truthyZ (cfg_batchSize c) then
    if Js.gtZ (cfg_batchSize c) 1000 then 1000%Z
    else match cfg_batchSize c with Some n => n | None => 10%Z end
  else 10%Z.

(** [config.batchTimeout ?? config.batchTimeout > 100000 ? 100000 : config.batchTimeout].
    [>] binds tighter than [??], and [??] tighter than [? :], so the
    condition of the conditional is
    [config.batchTimeout ?? (config.batchTimeout > 100000)]. *)
Definition init_batchTimeout (c : YaMicroBatcherConfig) : option Z :=
  if Js.truthy_num_bool
       (Js.coalesce_num_bool (cfg_batchTimeout c)
                             (Js.gtZ (cfg_batchTimeout c) 100000))
  then Some 100000%Z
  else cfg_batchTimeout c.

(** [config.memoryLimit ? config.memoryLimit > 1024 ? 1024 : config.memoryLimit : 10] *)
Definition init_memoryLimit (c : YaMicroBatcherConfig) : Q :=
  if Js.truthyQ (cfg_memoryLimit c) then
    if Js.gtQ (cfg_memoryLimit c) 1024%Q then 1024%Q
    else match cfg_memoryLimit c with Some q => q | None => 10%Q end
  else 10%Q.

Definition constructor (c : YaMicroBatcherConfig) : thrown YaMicroBatcher :=
  match cfg_batchProcessor c with
  | None => Throws "batchProcessor is required"
  | Some p =>
      Returns {| batchProcessor := p;
                 batchSize := init_batchSize c;
                 batchTimeout := init_batchTimeout c;
                 memoryLimit := init_memoryLimit c;
                 autoProcessOnMemoryLimit :=
                   Js.coalesce_bool (cfg_autoProcessOnMemoryLimit c) false;
                 currentMemory := 0%Q;
                 jobs := JsMap.empty;
                 finishedJobs := JsMap.empty;
                 timeoutId := None;
                 shutDown := false;
                 isProcessing := false;
                 returnAck := Js.coalesce_bool (cfg_returnAck c) false |}
  end.

(** *** Field assignments [this.f = v] *)

Definition set_currentMemory (v : Q) (b : YaMicroBatcher) : YaMicroBatcher :=
  mkBatcher (batchProcessor b) (batchSize b) (batchTimeout b) (memoryLimit b)
            (autoProcessOnMemoryLimit b) v (jobs b) (finishedJobs b)
            (timeoutId b) (shutDown b) (isProcessing b) (returnAck b).

Definition set_jobs (v : JsMap.t T) (b : YaMicroBatcher) : YaMicroBatcher :=
  mkBatcher (batchProcessor b) (batchSize b) (batchTimeout b) (memoryLimit b)
            (autoProcessOnMemoryLimit b) (currentMemory b) v (finishedJobs b)
            (timeoutId b) (shutDown b) (isProcessing b) (returnAck b).

Definition set_finishedJobs (v : JsMap.t (option T)) (b : YaMicroBatcher)
  : YaMicroBatcher :=
  mkBatcher (batchProcessor b) (batchSize b) (batchTimeout b) (memoryLimit b)
            (autoProcessOnMemoryLimit b) (currentMemory b) (jobs b) v
            (timeoutId b) (shutDown b) (isProcessing b) (returnAck b).

Definition set_timeoutId (v : option nat) (b : YaMicroBatcher) : YaMicroBatcher :=
  mkBatcher (batchProcessor b) (batchSize b) (batchTimeout b) (memoryLimit b)
            (autoProcessOnMemoryLimit b) (currentMemory b) (jobs b)
            (finishedJobs b) v (shutDown b) (isProcessing b) (returnAck b).

Definition set_shutDown (v : bool) (b : YaMicroBatcher) : YaMicroBatcher :=
  mkBatcher (batchProcessor b) (batchSize b) (batchTimeout b) (memoryLimit b)
            (autoProcessOnMemoryLimit b) (currentMemory b) (jobs b)
            (finishedJobs b) (timeoutId b) v (isProcessing b) (returnAck b).

Definition set_isProcessing (v : bool) (b : YaMicroBatcher) : YaMicroBatcher :=
  mkBatcher (batchProcessor b) (batchSize b) (batchTimeout b) (memoryLimit b)
            (autoProcessOnMemoryLimit b) (currentMemory b) (jobs b)
            (finishedJobs b) (timeoutId b) (shutDown b) v (returnAck b).

(** ** The host: timers, promises, console *)

(** Where [processJobs] was called from, that is, what is done with the
    promise it returns:
    - [FromSchedule]: [this.processJobs().catch(e => console.error(e))]
      in [processingShedule];
    - [FromTimer]: the timer callback [() => this.processJobs()], whose
      result [setTimeout] drops;
    - [FromForceProcess], [FromShutdown]: [await this.processJobs()], the
      last statement of the method. *)
Inductive origin : Type :=
| FromSchedule | FromTimer | FromForceProcess | FromShutdown.

(** A call of [batchProcessor] with the suspended [processJobs] that
    awaits it: its local [jobs] (the map that was [this.jobs] when the
    batch was taken), its caller, and how far it is.  [call_settled] is
    [None] while the reaction to the promise has not run; [Some None] once
    the promise is fulfilled and the [then] callback has run; [Some (Some e)]
    once it is rejected with [e].  In the last two cases the rest of
    [processJobs] is queued and has not run yet. *)
Record Call : Type := mkCall {
  call_snapshot : JsMap.t T;
  call_origin : origin;
  call_settled : option (option Reason)
}.

(** How a [batchProcessor] promise settles. *)
Inductive settlement : Type :=
| Fulfilled (results : list JobResult)
| Rejected (e : Reason).

(** What the batcher does to the outside.  [SubmitResolved] and the like
    say what the promise the method returned is settled with; this is
    decided in the transition that emits them, the code waiting for the
    promise runs later. *)
Inductive output : Type :=
| Invoked (c : nat) (p : Processor) (snapshot : JsMap.t T)
    (* [this.batchProcessor(jobs)], call number [c] *)
| ConsoleError (e : Reason)            (* [console.error(e)] *)
| UnhandledRejection (e : Reason)      (* a rejected promise nobody handles *)
| SubmitResolved (a : option AckJobSubmitted)
| SubmitRejected (message : string)
| SubmitRejectedTypeError
    (* rejected with the [TypeError] [JSON.stringify] threw *)
| ShutdownResolved
| ShutdownRejected (e : Reason)
| StopResolved
| ForceProcessResolved
| ForceProcessRejected (e : Reason).

Record World : Type := mkWorld {
  this : YaMicroBatcher;
  timers : list (nat * option Z);   (* armed timers: handle and delay *)
  pending : list (nat * Call);
    (* the calls of [batchProcessor] whose [processJobs] has not ended *)
  nextTimer : nat;
  nextCall : nat;
  uuidCalls : nat                   (* calls of [randomUUID] so far *)
}.

Definition drop {A : Type} (n : nat) (l : list (nat * A)) : list (nat * A) :=
  filter (fun x => negb (Nat.eqb (fst x) n)) l.

Fixpoint find_id {A : Type} (n : nat) (l : list (nat * A)) : option A :=
  match l with
  | [] => None
  | (m, a) :: l' => if Nat.eqb m n then Some a else find_id n l'
  end.

(** Notes on the call [n] that the reaction to its promise has run. *)
Definition mark (n : nat) (o : option Reason) (l : list (nat * Call))
  : list (nat * Call) :=
  map (fun x => if Nat.eqb (fst x) n
                then (fst x, mkCall (call_snapshot (snd x))
                                    (call_origin (snd x)) (Some o))
                else x) l.

(** *** A state-and-output monad for the method bodies *)

Definition M (A : Type) : Type := World -> A * World * list output.

Definition ret {A : Type} (a : A) : M A := fun w => (a, w, []).

Definition bind {A B : Type} (m : M A) (k : A -> M B) : M B :=
  fun w =>
    let '(a, w1, o1) := m w in
    let '(b, w2, o2) := k a w1 in
    (b, w2, o1 ++ o2).

Notation "x <- m ;; k" := (bind m (fun x => k))
  (at level 61, m at next level, k at level 200, only parsing).
Notation "m ;; k" := (bind m (fun _ => k))
  (at level 61, k at level 200, only parsing).

Definition run {A : Type} (m : M A) (w : World) : World * list output :=
  let '(_, w', o) := m w in (w', o).

(** [this.f] *)
Definition read {A : Type} (f : YaMicroBatcher -> A) : M A :=
  fun w => (f (this w), w, []).

(** [this.f = v] *)
Definition assign (f : YaMicroBatcher -> YaMicroBatcher) : M unit :=
  fun w => (tt, mkWorld (f (this w)) (timers w) (pending w)
                        (nextTimer w) (nextCall w) (uuidCalls w), []).

Definition emit (o : output) : M unit := fun w => (tt, w, [o]).

Definition clearTimeout (h : nat) : M unit :=
  fun w => (tt, mkWorld (this w) (drop h (timers w)) (pending w)
                        (nextTimer w) (nextCall w) (uuidCalls w), []).

(** [setTimeout(() => this.processJobs(), delay)]: the only callback the
    class ever arms. *)
Definition setTimeout (delay : option Z) : M nat :=
  fun w => (nextTimer w,
            mkWorld (this w) (timers w ++ [(nextTimer w, delay)]) (pending w)
                    (S (nextTimer w)) (nextCall w) (uuidCalls w), []).

Definition generateUUID : M string :=
  fun w => (randomUUID (uuidCalls w),
            mkWorld (this w) (timers w) (pending w)
                    (nextTimer w) (nextCall w) (S (uuidCalls w)), []).

(** [await this.batchProcessor(jobs).then(...)]: the callback is called and
    the running [processJobs] is suspended on the promise. *)
Definition await_batchProcessor (snapshot : JsMap.t T) (k : origin) : M unit :=
  fun w => (tt,
            mkWorld (this w) (timers w)
                    (pending w ++ [(nextCall w, mkCall snapshot k None)])
                    (nextTimer w) (S (nextCall w)) (uuidCalls w),
            [Invoked (nextCall w) (batchProcessor (this w)) snapshot]).

(** The promise of [processJobs] settles ([None]: fulfilled, [Some e]:
    rejected with [e]); what happens next depends on the caller. *)
Definition settle (k : origin) (r : option Reason) : M unit :=
  match k, r with
  | FromSchedule, None => ret tt
  | FromSchedule, Some e => emit (ConsoleError e)
  | FromTimer, None => ret tt
  | FromTimer, Some e => emit (UnhandledRejection e)
  | FromForceProcess, None => emit ForceProcessResolved
  | FromForceProcess, Some e => emit (ForceProcessRejected e)
  | FromShutdown, None => emit ShutdownResolved
  | FromShutdown, Some e => emit (ShutdownRejected e)
  end.

Fixpoint forEach {A : Type} (l : list A) (f : A -> M unit) : M unit :=
  match l with
  | [] => ret tt
  | a :: l' => f a ;; forEach l' f
  end.

(** ** The methods *)

(** [processJobs], up to its [await]. *)
Definition processJobs (k : origin) : M unit :=
  assign (set_isProcessing true) ;;
  tid <- read timeoutId ;;
  match tid with
  | Some h => clearTimeout h ;; assign (set_timeoutId None)
  | None => ret tt
  end ;;
  js <- read jobs ;;
  if Nat.eqb (JsMap.size js) 0 then
    assign (set_currentMemory 0%Q) ;;
    assign (set_isProcessing false) ;;
    settle k None
  else
    assign (set_jobs JsMap.empty) ;;
    assign (set_currentMemory 0%Q) ;;
    await_batchProcessor js k.

(** The body of the [then] callback for one result,
    [this.finishedJobs.set(result.jobId, jobs.get(result.jobId)!)], where
    [jobs] is the local of the suspended [processJobs]; an identifier the
    batch does not have is stored with [undefined]. *)
Definition record_result (snapshot : JsMap.t T) (result : JobResult) : M unit :=
  fj <- read finishedJobs ;;
  assign (set_finishedJobs
            (JsMap.set (jr_jobId result)
                       (JsMap.get (jr_jobId result) snapshot) fj)).

(** The reaction to the promise of [batchProcessor]: the [then] callback
    when it is fulfilled, nothing of the class when it is rejected. *)
Definition processJobs_then (c : Call) (r : settlement) : M unit :=
  match r with
  | Fulfilled results => forEach results (record_result (call_snapshot c))
  | Rejected _ => ret tt
  end.

(** What the continuation is resumed with. *)
Definition outcome (r : settlement) : option Reason :=
  match r with
  | Fulfilled _ => None
  | Rejected e => Some e
  end.

(** [processJobs] after its [await], resumed with the outcome [o] ([None]:
    fulfilled).  When the promise was rejected the [await] throws: the two
    statements after it do not run.  [this.jobs] is never the map of a
    suspended call (the map is replaced when the batch is taken), so
    [this.jobs.clear()] is the assignment of an empty map. *)
Definition processJobs_resume (c : Call) (o : option Reason) : M unit :=
  match o with
  | None =>
      assign (set_jobs JsMap.empty) ;;
      assign (set_isProcessing false) ;;
      settle (call_origin c) None
  | Some e => settle (call_origin c) (Some e)
  end.

Definition processingShedule : M unit :=
  p <- read isProcessing ;;
  if p then ret tt
  else
    js <- read jobs ;;
    most <- read batchSize ;;
    auto <- read autoProcessOnMemoryLimit ;;
    mem <- read currentMemory ;;
    limit <- read memoryLimit ;;
    if (most <=? Z.of_nat (JsMap.size js))%Z || (auto && Qle_bool limit mem)
    then processJobs FromSchedule
    else
      tid <- read timeoutId ;;
      match tid with
      | Some h => clearTimeout h
      | None => ret tt
      end ;;
      delay <- read batchTimeout ;;
      h <- setTimeout delay ;;
      assign (set_timeoutId (Some h)).

Definition submit (job : T) : M unit :=
  down <- read shutDown ;;
  if down then emit (SubmitRejected "MicroBatcher is shutdown")
  else
    jobId <- generateUUID ;;
    js <- read jobs ;;
    assign (set_jobs (JsMap.set jobId job js)) ;;
    mem <- read currentMemory ;;
    match calculateMemory [job] with
    | None => emit SubmitRejectedTypeError
    | Some size =>
        assign (set_currentMemory (mem + size)%Q) ;;
        processingShedule ;;
        ack <- read returnAck ;;
        emit (SubmitResolved
                (if ack then Some (mkAck SUBMITTED None jobId) else None))
    end.

Definition shutdown : M unit :=
  assign (set_shutDown true) ;;
  tid <- read timeoutId ;;
  match tid with
  | Some h => clearTimeout h
  | None => ret tt
  end ;;
  js <- read jobs ;;
  if Nat.ltb 0 (JsMap.size js) then processJobs FromShutdown
  else emit ShutdownResolved.

Definition stop : M unit :=
  assign (set_shutDown true) ;;
  assign (set_jobs JsMap.empty) ;;
  tid <- read timeoutId ;;
  match tid with
  | Some h => clearTimeout h
  | None => ret tt
  end ;;
  emit StopResolved.

Definition forceProcess : M unit := processJobs FromForceProcess.

Definition jobCount (b : YaMicroBatcher) : nat :=
  if isProcessing b then 0 else JsMap.size (jobs b).

Definition jobStatus (b : YaMicroBatcher) (jobId : string) : AckJobSubmitted :=
  if JsMap.has jobId (jobs b) then mkAck SUBMITTED None jobId
  else mkAck NOT_FOUND None jobId.

(** [None]: the call throws. *)
Definition isMemoryLimitReached (b : YaMicroBatcher) : option bool :=
  utils_isMemoryLimitReached (JsMap.values (jobs b)) (memoryLimit b).

(** ** The machine *)

Inductive event : Type :=
| CallSubmit (job : T)
| CallShutdown
| CallStop
| CallForceProcess
| TimerExpires (h : nat)
| ProcessorSettles (c : nat) (r : settlement)
    (* the reaction of [processJobs] to the promise of call [c] runs *)
| ProcessJobsResumes (c : nat).
    (* the rest of the [processJobs] of call [c] runs *)

Definition step (w : World) (e : event) : World * list output :=
  match e with
  | CallSubmit job => run (submit job) w
  | CallShutdown => run shutdown w
  | CallStop => run stop w
  | CallForceProcess => run forceProcess w
  | TimerExpires h =>
      match find_id h (timers w) with
      | Some _ =>
          run (processJobs FromTimer)
              (mkWorld (this w) (drop h (timers w)) (pending w)
                       (nextTimer w) (nextCall w) (uuidCalls w))
      | None => (w, [])
      end
  | ProcessorSettles c r =>
      match find_id c (pending w) with
      | Some call =>
          match call_settled call with
          | None =>
              run (processJobs_then call r)
                  (mkWorld (this w) (timers w)
                           (mark c (outcome r) (pending w))
                           (nextTimer w) (nextCall w) (uuidCalls w))
          | Some _ => (w, [])
          end
      | None => (w, [])
      end
  | ProcessJobsResumes c =>
      match find_id c (pending w) with
      | Some call =>
          match call_settled call with
          | Some o =>
              run (processJobs_resume call o)
                  (mkWorld (this w) (timers w) (drop c (pending w))
                           (nextTimer w) (nextCall w) (uuidCalls w))
          | None => (w, [])
          end
      | None => (w, [])
      end
  end.

(** Running a sequence of events, collecting the outputs. *)
Fixpoint steps (w : World) (es : list event) : World * list output :=
  match es with
  | [] => (w, [])
  | e :: es' =>
      let '(w1, o1) := step w e in
      let '(w2, o2) := steps w1 es' in
      (w2, o1 ++ o2)
  end.

(** The calls of [forceProcess] and [shutdown] in [es] are all made at a
    moment when no batch is outstanding: every [processJobs] that called
    [batchProcessor] has run to its end. *)
Fixpoint calls_do_not_overlap (w : World) (es : list event) : bool :=
  match es with
  | [] => true
  | e :: es' =>
      match e, pending w with
      | CallForceProcess, _ :: _ => false
      | CallShutdown, _ :: _ => false
      | _, _ => calls_do_not_overlap (fst (step w e)) es'
      end
  end.

(** The calls of [batchProcessor] whose promise [processJobs] has not yet
    reacted to.  They are among the outstanding batches of [pending]; a
    batch whose promise is settled stays in [pending] until the rest of its
    [processJobs] has run. *)
Definition unsettled (w : World) : list (nat * Call) :=
  filter (fun x => match call_settled (snd x) with
                   | None => true
                   | Some _ => false
                   end)
         (pending w).

(** *** The job queue

    The order in which the host runs the jobs that one turn of a caller
    leaves in its queue.  The caller submits some jobs one after the other
    and awaits the promise of one of the calls, [awaited] (counted from 0).
    [batchProcessor] is an [async] function without [await], as in the test
    suite: its promise is fulfilled with [results jobs] when it returns, so
    the reaction of [processJobs] to it is queued in the turn that makes
    the call.

    [submit] is an [async] function whose body returns a promise.  The
    promise of the call adopts the returned one in a job of its own, is
    settled in the job after that, and the code awaiting it runs in a third
    job.  When the body throws (the [TypeError] of [JSON.stringify]) the
    promise of the call is rejected at once and the [await] of the caller
    queues its resumption directly. *)
Variable results : JsMap.t T -> list JobResult.

Inductive microtask : Type :=
| AdoptReturned (k : nat)
    (* the promise of [submit] number [k] adopts the promise returned *)
| SettleSubmit (k : nat)
    (* the promise of [submit] number [k] is settled *)
| ResumeCaller (k : nat)
    (* the code awaiting [submit] number [k] runs *)
| Transition (e : event).
    (* a job of the batcher: [ProcessorSettles], [ProcessJobsResumes] *)

(** The jobs queued while call number [k] of [submit] runs and returns, in
    the order of the outputs of the call. *)
Definition queued_by_submit (awaited k : nat) (o : list output)
  : list microtask :=
  flat_map (fun x =>
              match x with
              | Invoked c _ s =>
                  [Transition (ProcessorSettles c (Fulfilled (results s)))]
              | SubmitResolved _ | SubmitRejected _ => [AdoptReturned k]
              | SubmitRejectedTypeError =>
                  if Nat.eqb k awaited then [ResumeCaller k] else []
              | _ => []
              end)
           o.

(** One turn of the caller: [submit] is called on each job of [js], the
    calls being numbered from [k]; the queue the turn leaves. *)
Fixpoint turn (awaited k : nat) (w : World) (js : list T)
  : World * list microtask :=
  match js with
  | [] => (w, [])
  | j :: js' =>
      let '(w1, o) := step w (CallSubmit j) in
      let '(w2, q) := turn awaited (S k) w1 js' in
      (w2, queued_by_submit awaited k o ++ q)
  end.

(** Running one job: the world after it and the jobs it queues. *)
Definition run_microtask (awaited : nat) (w : World) (j : microtask)
  : World * list microtask :=
  match j with
  | AdoptReturned k => (w, [SettleSubmit k])
  | SettleSubmit k => (w, if Nat.eqb k awaited then [ResumeCaller k] else [])
  | ResumeCaller _ => (w, [])
  | Transition e =>
      (fst (step w e),
       match e with
       | ProcessorSettles c _ => [Transition (ProcessJobsResumes c)]
       | _ => []
       end)
  end.

(** The queue is run first in, first out, up to the job in which the
    caller resumes: the world the caller finds and the jobs run before it.
    [None] when the caller is not resumed within [fuel] jobs. *)
Fixpoint until_caller_resumes (fuel awaited : nat) (w : World)
         (q : list microtask) : option (World * list microtask) :=
  match fuel, q with
  | 0, _ => None
  | _, [] => None
  | S n, ResumeCaller _ :: _ => Some (w, [])
  | S n, j :: q' =>
      let '(w1, new) := run_microtask awaited w j in
      match until_caller_resumes n awaited w1 (q' ++ new) with
      | Some (w2, ran) => Some (w2, j :: ran)
      | None => None
      end
  end.

(** Every armed timer is the one whose handle [timeoutId] holds. *)
Definition timer_owned (w : World) : Prop :=
  forall x, In x (timers w) -> timeoutId (this w) = Some (fst x).

(** At most one timer is armed; it is the one [timeoutId] holds and its
    delay is [batchTimeout]. *)
Definition one_timer (w : World) : Prop :=
  timers w = []
  \/ exists h, timers w = [(h, batchTimeout (this w))]
               /\ timeoutId (this w) = Some h.

(** The fields the constructor sets from the configuration. *)
Definition configuration (b : YaMicroBatcher)
  : Processor * Z * option Z * Q * bool * bool :=
  (batchProcessor b, batchSize b, batchTimeout b, memoryLimit b,
   autoProcessOnMemoryLimit b, returnAck b).

(** The invariant behind single flight: at most one call is pending; while
    one is pending [isProcessing] is set; while [isProcessing] is set no
    timer is armed; an armed timer is the one [timeoutId] holds. *)
Definition single_flight (w : World) : Prop :=
  List.length (pending w) <= 1
  /\ (pending w <> [] -> isProcessing (this w) = true)
  /\ (isProcessing (this w) = true -> timers w = [])
  /\ timer_owned w.

(** A freshly constructed batcher in a host with no timer armed and no
    call made. *)
Definition boot (b : YaMicroBatcher) : World := mkWorld b [] [] 0 0 0.

End Batcher.

Arguments constructor {T Processor} c.
Arguments Fulfilled {T Reason} results.
Arguments Rejected {T Reason} e.
Arguments CallSubmit {T Reason} job.
Arguments CallShutdown {T Reason}.
Arguments CallStop {T Reason}.
Arguments CallForceProcess {T Reason}.
Arguments TimerExpires {T Reason} h.
Arguments ProcessorSettles {T Reason} c r.
Arguments ProcessJobsResumes {T Reason} c.
Arguments boot {T Processor Reason} b.
Arguments mkCall {T Reason} call_snapshot call_origin call_settled.
Arguments Invoked {T Processor Reason} c p snapshot.
Arguments ConsoleError {T Processor Reason} e.
Arguments UnhandledRejection {T Processor Reason} e.
Arguments SubmitResolved {T Processor Reason} a.
Arguments SubmitRejected {T Processor Reason} message.
Arguments SubmitRejectedTypeError {T Processor Reason}.
Arguments ShutdownResolved {T Processor Reason}.
Arguments ShutdownRejected {T Processor Reason} e.
Arguments StopResolved {T Processor Reason}.
Arguments ForceProcessResolved {T Processor Reason}.
Arguments ForceProcessRejected {T Processor Reason} e.
Arguments AdoptReturned {T Reason} k.
Arguments SettleSubmit {T Reason} k.
Arguments ResumeCaller {T Reason} k.
Arguments Transition {T Reason} e.
Arguments settle {T Processor Reason} k r _.
Arguments record_result {T Processor Reason} snapshot result _.
Arguments processJobs {T Processor Reason} k _.
Arguments processingShedule {T Processor Reason} _.
Arguments submit {T Processor Reason} byteLength_json randomUUID job _.
Arguments shutdown {T Processor Reason} _.
Arguments stop {T Processor Reason} _.
Arguments forceProcess {T Processor Reason} _.

(** ** A concrete instance

    Payloads are strings of letters and digits, the callback is a token,
    rejection reasons are strings; the [n]-th identifier is the one-letter
    string of the [n]-th letter; the serialisation of an array of such
    strings takes their characters, two quotes for each, the separating
    commas and two brackets, and never throws. *)

Module Scenario.

Definition uuid (n : nat) : string :=
  String (Ascii.ascii_of_nat (97 + n)) EmptyString.

Definition bytes (l : list string) : option Z :=
  Some (Z.of_nat (String.length (String.concat "," l)
                  + 2 * List.length l + 2)).

(** [{batchSize, batchTimeout, returnAck: true, batchProcessor}] *)
Definition config (size timeout : option Z) : YaMicroBatcherConfig unit :=
  mkConfig size timeout (Some tt) (Some true) None None.

(** [new YaMicroBatcher(config size timeout)] *)
Definition make (size timeout : option Z) : YaMicroBatcher string unit :=
  match constructor (config size timeout) with
  | Returns b => b
  | Throws _ => mkBatcher tt 0 None 0%Q false 0%Q [] [] None false false false
  end.

Definition World : Type := World string unit string.
Definition event : Type := event string string.
Definition output : Type := output string unit string.

Definition step : World -> event -> World * list output :=
  step bytes uuid.

Definition steps : World -> list event -> World * list output :=
  steps bytes uuid.

(** A new batcher with the given [batchSize] (and [batchTimeout: 1000],
    [returnAck: true]) in a host where nothing has happened yet. *)
Definition fresh (size : Z) : World := boot (make (Some size) (Some 1000%Z)).

(** The batcher of the test suite: [{batchSize: 3, batchTimeout: 1000,
    returnAck: true, memoryLimit: 10, autoProcessOnMemoryLimit: true,
    batchProcessor}]. *)
Definition tested : World :=
  match constructor (mkConfig (Some 3%Z) (Some 1000%Z) (Some tt) (Some true)
                              (Some 10%Q) (Some true)) with
  | Returns b => boot b
  | Throws _ => fresh 3
  end.

(** The result record a well-behaved processor returns for a job. *)
Definition processed (jobId job : string) : JobResult string :=
  mkJobResult PROCESSED None jobId (Some job).

(** The [batchProcessor] of the test suite: one [PROCESSED] record per job
    of the batch, in the order of the map. *)
Definition processor (jobs : JsMap.t string) : list (JobResult string) :=
  map (fun x => processed (fst x) (snd x)) jobs.

End Scenario.

(** * Properties *)

Module JsMapFacts.
Import JsMap.

Lemma has_set_same {V : Type} (k : string) (v : V) (m : t V) :
  has k (set k v m) = true.
Proof.
  induction m as [|[k' v'] m IH]; simpl.
  - now rewrite String.eqb_refl.
  - destruct (String.eqb k k') eqn:E; simpl; rewrite E; auto.
Qed.

Lemma get_set_same {V : Type} (k : string) (v : V) (m : t V) :
  get k (set k v m) = Some v.
Proof.
  induction m as [|[k' v'] m IH]; simpl.
  - now rewrite String.eqb_refl.
  - destruct (String.eqb k k') eqn:E; simpl; rewrite E; auto.
Qed.

Lemma get_set_other {V : Type} (k k' : string) (v : V) (m : t V) :
  k <> k' -> get k (set k' v m) = get k m.
Proof.
  intros Hne. induction m as [|[k0 v0] m IH]; simpl.
  - destruct (String.eqb_spec k k'); [contradiction|reflexivity].
  - destruct (String.eqb_spec k' k0); simpl.
    + subst k0. destruct (String.eqb_spec k k'); [contradiction|reflexivity].
    + destruct (String.eqb k k0); [reflexivity|exact IH].
Qed.

Lemma set_not_empty {V : Type} (k : string) (v : V) (m : t V) :
  set k v m <> empty.
Proof.
  destruct m as [|[k' v'] m]; simpl; [discriminate|].
  destruct (String.eqb k k'); discriminate.
Qed.

Lemma size_set_not_0 {V : Type} (k : string) (v : V) (m : t V) :
  Nat.eqb (size (set k v m)) 0 = false.
Proof.
  pose proof (set_not_empty k v m) as H.
  destruct (set k v m); [contradiction|reflexivity].
Qed.

Lemma has_keys {V : Type} (k : string) (m : t V) :
  has k m = true <-> In k (keys m).
Proof.
  induction m as [|[k' v'] m IH]; simpl.
  - split; [discriminate|contradiction].
  - destruct (String.eqb_spec k k').
    + subst. split; auto.
    + rewrite IH. split; [auto|]. intros [E|H]; [congruence|exact H].
Qed.

(** A key the map does not have goes last. *)
Lemma set_fresh {V : Type} (k : string) (v : V) (m : t V) :
  ~ In k (keys m) -> set k v m = m ++ [(k, v)].
Proof.
  induction m as [|[k' v'] m IH]; simpl; intros H; [reflexivity|].
  destruct (String.eqb_spec k k'); [subst; tauto|].
  rewrite IH by tauto. reflexivity.
Qed.

End JsMapFacts.

(** ** The constructor *)

Section ConstructorFacts.

Variables T Processor : Type.

Implicit Types (c : YaMicroBatcherConfig Processor)
               (b : YaMicroBatcher T Processor).

Lemma constructor_batchSize c b :
  constructor c = Returns b -> batchSize b = init_batchSize c.
Proof.
  unfold constructor. destruct (cfg_batchProcessor c); [|discriminate].
  intros H. injection H as <-. reflexivity.
Qed.

Lemma constructor_batchTimeout c b :
  constructor c = Returns b -> batchTimeout b = init_batchTimeout c.
Proof.
  unfold constructor. destruct (cfg_batchProcessor c); [|discriminate].
  intros H. injection H as <-. reflexivity.
Qed.

(** Every supplied [batchTimeout] other than 0 is replaced by 100000, not
    only those above the cap; 0 and an omitted field are passed on as they
    are. *)
Lemma init_batchTimeout_cases c :
  init_batchTimeout c =
    match cfg_batchTimeout c with
    | Some n => if (n =? 0)%Z then Some 0%Z else Some 100000%Z
    | None => None
    end.
Proof.
  unfold init_batchTimeout. destruct (cfg_batchTimeout c) as [n|]; simpl.
  - destruct (Z.eqb_spec n 0); subst; reflexivity.
  - reflexivity.
Qed.

(** C9, as amended: [batchSize] is capped at 1000 and has no lower bound.
    An omitted field (and a supplied 0) gives 10, a supplied value above
    1000 gives 1000, every other supplied value is kept: a supplied value of
    at least 1 gives a [batchSize] in [1,1000], a negative one is kept. *)
Theorem C9_batchSize_capped c b :
  constructor c = Returns b ->
  (cfg_batchSize c = None -> batchSize b = 10%Z) /\
  (cfg_batchSize c = Some 0%Z -> batchSize b = 10%Z) /\
  (forall n, cfg_batchSize c = Some n -> (1000 < n)%Z ->
             batchSize b = 1000%Z) /\
  (forall n, cfg_batchSize c = Some n -> (1 <= n <= 1000)%Z ->
             batchSize b = n) /\
  (forall n, cfg_batchSize c = Some n -> (1 <= n)%Z ->
             (1 <= batchSize b <= 1000)%Z) /\
  (forall n, cfg_batchSize c = Some n -> (n < 0)%Z -> batchSize b = n).
Proof.
  intros Hc. rewrite (constructor_batchSize _ Hc). unfold init_batchSize.
  assert (Hcase : forall n, cfg_batchSize c = Some n -> n <> 0%Z ->
            (if Js.truthyZ (cfg_batchSize c) then
               if Js.gtZ (cfg_batchSize c) 1000 then 1000%Z
               else match cfg_batchSize c with Some m => m | None => 10%Z end
             else 10%Z) = (if (1000 <? n)%Z then 1000%Z else n)).
  { intros n -> Hn. simpl. destruct (Z.eqb_spec n 0); [contradiction|].
    reflexivity. }
  split; [intros ->; reflexivity|].
  split; [intros ->; reflexivity|].
  split; [intros n E Hn; rewrite (Hcase n E) by lia;
          destruct (Z.ltb_spec 1000 n); lia|].
  split; [intros n E Hn; rewrite (Hcase n E) by lia;
          destruct (Z.ltb_spec 1000 n); lia|].
  split; intros n E Hn; rewrite (Hcase n E) by lia;
    destruct (Z.ltb_spec 1000 n); lia.
Qed.

Lemma constructor_memoryLimit c b :
  constructor c = Returns b -> memoryLimit b = init_memoryLimit c.
Proof.
  unfold constructor. destruct (cfg_batchProcessor c); [|discriminate].
  intros H. injection H as <-. reflexivity.
Qed.

(** X1: whatever [batchSize] is supplied, a constructed batcher has a
    [batchSize] that is at most 1000 and is not 0: the size trigger
    [jobs.size >= batchSize] can never hold on a cap above 1000, and a
    supplied 0 does not give a batcher that fires on every submission, it
    gives the default. *)
Theorem constructed_batchSize_bounds c b :
  constructor c = Returns b ->
  (batchSize b <= 1000)%Z /\ batchSize b <> 0%Z.
Proof.
  intros Hc. rewrite (constructor_batchSize _ Hc). unfold init_batchSize.
  destruct (cfg_batchSize c) as [n|]; simpl; [|lia].
  destruct (Z.eqb_spec n 0); simpl; [lia|].
  destruct (Z.ltb_spec 1000 n); lia.
Qed.

(** X2: whatever [batchTimeout] is supplied, the delay a constructed
    batcher arms its timer with is [undefined], 0 or 100000, and it is
    [undefined] only when the field is omitted and 0 only when 0 is
    supplied. *)
Theorem constructed_batchTimeout_values c b :
  constructor c = Returns b ->
  (batchTimeout b = None /\ cfg_batchTimeout c = None)
  \/ (batchTimeout b = Some 0%Z /\ cfg_batchTimeout c = Some 0%Z)
  \/ (batchTimeout b = Some 100000%Z
      /\ exists n, cfg_batchTimeout c = Some n /\ n <> 0%Z).
Proof.
  intros Hc. rewrite (constructor_batchTimeout _ Hc), init_batchTimeout_cases.
  destruct (cfg_batchTimeout c) as [n|]; [|left; split; reflexivity].
  destruct (Z.eqb_spec n 0).
  - subst. right. left. split; reflexivity.
  - right. right. split; [reflexivity|]. exists n. split; [reflexivity|exact n0].
Qed.

(** X3: [memoryLimit] is capped at 1024 MB and is never 0: an omitted or
    zero limit gives 10, a supplied limit above 1024 gives 1024, every other
    supplied limit (also a negative one) is kept. *)
Theorem constructed_memoryLimit_bounds c b :
  constructor c = Returns b ->
  (memoryLimit b <= 1024)%Q
  /\ ~ (memoryLimit b == 0)%Q
  /\ (cfg_memoryLimit c = None -> memoryLimit b = 10%Q)
  /\ (forall q, cfg_memoryLimit c = Some q -> (q == 0)%Q -> memoryLimit b = 10%Q)
  /\ (forall q, cfg_memoryLimit c = Some q -> (1024 < q)%Q ->
                memoryLimit b = 1024%Q)
  /\ (forall q, cfg_memoryLimit c = Some q -> ~ (q == 0)%Q -> (q <= 1024)%Q ->
                memoryLimit b = q).
Proof.
  intros Hc. rewrite (constructor_memoryLimit _ Hc). unfold init_memoryLimit.
  destruct (cfg_memoryLimit c) as [q|]; simpl.
  - destruct (Qeq_bool q 0) eqn:Ez; simpl.
    + apply Qeq_bool_iff in Ez.
      repeat split; try discriminate; try reflexivity.
      * intros q' E Hq. injection E as <-. rewrite Ez in Hq.
        discriminate.
      * intros q' E Hq. injection E as <-. contradiction.
    + assert (Hnz : ~ (q == 0)%Q).
      { intros H. apply Qeq_bool_iff in H. congruence. }
      destruct (Qle_bool q 1024) eqn:El; simpl.
      * apply Qle_bool_iff in El.
        repeat split; auto; try discriminate.
        -- intros q' E Hq. injection E as <-. contradiction.
        -- intros q' E Hq. injection E as <-.
           exfalso. apply (Qlt_not_le _ _ Hq El).
        -- intros q' E _ _. injection E as <-. reflexivity.
      * assert (Hgt : ~ (q <= 1024)%Q).
        { intros H. apply Qle_bool_iff in H. congruence. }
        repeat split; try discriminate; try reflexivity.
        -- intros q' E Hq. injection E as <-. contradiction.
        -- intros q' E _ Hq. injection E as <-. contradiction.
  - repeat split; try discriminate; reflexivity.
Qed.

End ConstructorFacts.

(** C9 at a supplied [batchSize] of 7. *)
Lemma C9_batchSize_capped_witness :
  constructor (Scenario.config (Some 7%Z) (Some 1000%Z))
    = Returns (Scenario.make (Some 7%Z) (Some 1000%Z))
  /\ (1 <= batchSize (Scenario.make (Some 7%Z) (Some 1000%Z)) <= 1000)%Z.
Proof.
  split; [reflexivity|].
  destruct (C9_batchSize_capped (T := string)
              (Scenario.config (Some 7%Z) (Some 1000%Z)) eq_refl)
    as (_ & _ & _ & _ & Hrange & _).
  apply (Hrange 7%Z); [reflexivity | lia].
Defined.

(** C9 as stated fails: a supplied [batchSize] of -5 is neither raised to 1
    nor replaced by the default; the constructed batcher has [batchSize] -5. *)
Lemma C9_counterexample :
  constructor (Scenario.config (Some (-5)%Z) (Some 1000%Z))
    = Returns (Scenario.make (Some (-5)%Z) (Some 1000%Z))
  /\ batchSize (Scenario.make (Some (-5)%Z) (Some 1000%Z)) = (-5)%Z
  /\ ~ (forall (c : YaMicroBatcherConfig unit) (b : YaMicroBatcher string unit),
          constructor c = Returns b -> (1 <= batchSize b)%Z).
Proof.
  split; [reflexivity|]. split; [reflexivity|].
  intros H.
  specialize (H (Scenario.config (Some (-5)%Z) (Some 1000%Z)) _ eq_refl).
  change (1 <= -5)%Z in H. lia.
Qed.

(** C4 on the code: [new YaMicroBatcher({batchSize: 3, batchTimeout: 1000,
    ...})], the configuration of the test suite, gets [batchTimeout] 100000,
    not 1000; 99999 and -1 become 100000 as well; with the field omitted
    [batchTimeout] is [undefined], not 1000. *)
Theorem C4_batchTimeout_not_kept_nor_defaulted :
  batchTimeout (Scenario.make (Some 3%Z) (Some 1000%Z)) = Some 100000%Z
  /\ batchTimeout (Scenario.make (Some 3%Z) (Some 99999%Z)) = Some 100000%Z
  /\ batchTimeout (Scenario.make (Some 3%Z) (Some (-1)%Z)) = Some 100000%Z
  /\ batchTimeout (Scenario.make (Some 3%Z) (Some 100001%Z)) = Some 100000%Z
  /\ batchTimeout (Scenario.make (Some 3%Z) None) = None.
Proof. repeat split. Qed.

(** ** The machine *)

Lemma find_id_drop {A : Type} (n : nat) (l : list (nat * A)) :
  find_id n (drop n l) = None.
Proof.
  induction l as [|[m a] l IH]; simpl; [reflexivity|].
  destruct (Nat.eqb m n) eqn:E; simpl; [exact IH|].
  now rewrite E.
Qed.

Lemma drop_all_same {A : Type} (n : nat) (l : list (nat * A)) :
  (forall x, In x l -> fst x = n) -> drop n l = [].
Proof.
  induction l as [|[m a] l IH]; simpl; intros H; [reflexivity|].
  assert (E : m = n) by exact (H (m, a) (or_introl eq_refl)).
  subst m. rewrite Nat.eqb_refl. simpl.
  apply IH. intros x Hx. apply H. now right.
Qed.

Lemma find_id_app_fresh {A : Type} (n : nat) (a : A) (l : list (nat * A)) :
  find_id n l = None -> find_id n (l ++ [(n, a)]) = Some a.
Proof.
  induction l as [|[m b] l IH]; simpl; intros H.
  - now rewrite Nat.eqb_refl.
  - destruct (Nat.eqb m n); [discriminate | auto].
Qed.

Lemma length_filter_le {A : Type} (f : A -> bool) (l : list A) :
  List.length (filter f l) <= List.length l.
Proof.
  induction l as [|x l IH]; simpl; [lia|]. destruct (f x); simpl; lia.
Qed.

Lemma length_mark {T Reason : Type} (n : nat) (o : option Reason)
      (l : list (nat * Call T Reason)) :
  List.length (mark n o l) = List.length l.
Proof. unfold mark. apply length_map. Qed.

Lemma mark_app_fresh {T Reason : Type} (n : nat) (o : option Reason)
      (call : Call T Reason) (l : list (nat * Call T Reason)) :
  find_id n l = None ->
  mark n o (l ++ [(n, call)])
  = l ++ [(n, mkCall (call_snapshot call) (call_origin call) (Some o))].
Proof.
  unfold mark. rewrite map_app. simpl. rewrite Nat.eqb_refl. intros H.
  f_equal. induction l as [|[m b] l IH]; simpl in *; [reflexivity|].
  destruct (Nat.eqb m n); [discriminate|]. now rewrite IH.
Qed.

(** Unfolds a method body on a world given by its fields. *)
Ltac exec :=
  cbv beta iota zeta delta
    [step run submit shutdown stop forceProcess processingShedule
     processJobs processJobs_then processJobs_resume outcome record_result
     settle
     bind ret read assign emit clearTimeout setTimeout generateUUID
     await_batchProcessor
     set_currentMemory set_jobs set_finishedJobs set_timeoutId set_shutDown
     set_isProcessing
     this timers pending nextTimer nextCall uuidCalls
     batchProcessor batchSize batchTimeout memoryLimit
     autoProcessOnMemoryLimit currentMemory jobs finishedJobs timeoutId
     shutDown isProcessing returnAck
     call_snapshot call_origin call_settled fst snd app].

(** Reads fields off worlds and batchers given by their constructors. *)
Ltac fields :=
  cbn [fst snd this timers pending nextTimer nextCall uuidCalls
       batchProcessor batchSize batchTimeout memoryLimit
       autoProcessOnMemoryLimit currentMemory jobs finishedJobs timeoutId
       shutDown isProcessing returnAck
       set_currentMemory set_jobs set_finishedJobs set_timeoutId set_shutDown
       set_isProcessing call_snapshot call_origin call_settled].

Ltac open_world w :=
  let b := fresh "b" in
  destruct w as [b ?ts ?ps ?nt ?nc ?uc];
  destruct b as [?bp ?bsz ?bto ?lim ?auto ?mem ?js ?fin ?tid ?down ?busy ?ack].

Section MachineFacts.

Variables T Processor Reason : Type.
Variable byteLength_json : list T -> option Z.
Variable randomUUID : nat -> string.

Local Abbreviation World := (World T Processor Reason).
Local Abbreviation event := (event T Reason).
Local Abbreviation output := (output T Processor Reason).
Local Abbreviation step := (@step T Processor Reason byteLength_json randomUUID).
Local Abbreviation steps := (@steps T Processor Reason byteLength_json randomUUID).
Local Abbreviation boot := (@boot T Processor Reason).

Implicit Types (w : World) (e : event) (es : list event).

(** The [then] callback only writes [finishedJobs]. *)
Lemma forEach_record_result (snapshot : JsMap.t T) (rs : list (JobResult T)) w :
  forEach rs (record_result (Reason := Reason) snapshot) w =
    (tt,
     mkWorld (set_finishedJobs
                (fold_left (fun fj r => JsMap.set (jr_jobId r)
                                          (JsMap.get (jr_jobId r) snapshot) fj)
                           rs (finishedJobs (this w)))
                (this w))
             (timers w) (pending w) (nextTimer w) (nextCall w) (uuidCalls w),
     []).
Proof.
  revert w. induction rs as [|r rs IH]; intros w.
  - open_world w. reflexivity.
  - simpl. unfold bind at 1. unfold record_result at 1.
    unfold bind, read, assign. rewrite IH.
    open_world w. reflexivity.
Qed.

(** What the reaction to the promise does to the world. *)
Lemma processJobs_then_fulfilled (c : Call T Reason) (rs : list (JobResult T)) w :
  run (processJobs_then c (Fulfilled rs)) w =
    (mkWorld (set_finishedJobs
                (fold_left (fun fj r => JsMap.set (jr_jobId r)
                              (JsMap.get (jr_jobId r) (call_snapshot c)) fj)
                           rs (finishedJobs (this w)))
                (this w))
             (timers w) (pending w) (nextTimer w) (nextCall w) (uuidCalls w),
     []).
Proof.
  unfold run, processJobs_then. rewrite forEach_record_result. reflexivity.
Qed.

Lemma processJobs_then_rejected (c : Call T Reason) (e : Reason) w :
  run (processJobs_then c (@Rejected T Reason e)) w = (w, []).
Proof. reflexivity. Qed.

(** What the rest of [processJobs] does to the world. *)
Lemma processJobs_resume_fulfilled (c : Call T Reason) w :
  run (processJobs_resume (Processor := Processor) c None) w =
    (mkWorld (set_isProcessing false (set_jobs JsMap.empty (this w)))
             (timers w) (pending w) (nextTimer w) (nextCall w) (uuidCalls w),
     match call_origin c with
     | FromSchedule | FromTimer => []
     | FromForceProcess => [ForceProcessResolved]
     | FromShutdown => [ShutdownResolved]
     end).
Proof.
  open_world w. destruct c as [snap [] st]; reflexivity.
Qed.

Lemma processJobs_resume_rejected (c : Call T Reason) (e : Reason) w :
  run (processJobs_resume (Processor := Processor) c (Some e)) w =
    (w,
     match call_origin c with
     | FromSchedule => [ConsoleError e]
     | FromTimer => [UnhandledRejection e]
     | FromForceProcess => [ForceProcessRejected e]
     | FromShutdown => [ShutdownRejected e]
     end).
Proof.
  destruct c as [snap [] st]; reflexivity.
Qed.

(** The two transitions of a settlement, on the world. *)
Lemma step_settles w c (r : settlement T Reason) :
  step w (ProcessorSettles c r) =
    match find_id c (pending w) with
    | Some call =>
        match call_settled call with
        | None =>
            (mkWorld
               match r with
               | Fulfilled rs =>
                   set_finishedJobs
                     (fold_left (fun fj r => JsMap.set (jr_jobId r)
                                   (JsMap.get (jr_jobId r) (call_snapshot call)) fj)
                                rs (finishedJobs (this w)))
                     (this w)
               | Rejected _ => this w
               end
               (timers w) (mark c (outcome r) (pending w))
               (nextTimer w) (nextCall w) (uuidCalls w),
             [])
        | Some _ => (w, [])
        end
    | None => (w, [])
    end.
Proof.
  unfold step. destruct (find_id c (pending w)) as [call|]; [|reflexivity].
  destruct (call_settled call); [reflexivity|].
  destruct r as [rs|err].
  - rewrite processJobs_then_fulfilled. reflexivity.
  - rewrite processJobs_then_rejected. reflexivity.
Qed.

Lemma step_resumes w c :
  step w (ProcessJobsResumes c) =
    match find_id c (pending w) with
    | Some call =>
        match call_settled call with
        | Some None =>
            (mkWorld (set_isProcessing false (set_jobs JsMap.empty (this w)))
                     (timers w) (drop c (pending w))
                     (nextTimer w) (nextCall w) (uuidCalls w),
             match call_origin call with
             | FromSchedule | FromTimer => []
             | FromForceProcess => [ForceProcessResolved]
             | FromShutdown => [ShutdownResolved]
             end)
        | Some (Some e) =>
            (mkWorld (this w) (timers w) (drop c (pending w))
                     (nextTimer w) (nextCall w) (uuidCalls w),
             match call_origin call with
             | FromSchedule => [ConsoleError e]
             | FromTimer => [UnhandledRejection e]
             | FromForceProcess => [ForceProcessRejected e]
             | FromShutdown => [ShutdownRejected e]
             end)
        | None => (w, [])
        end
    | None => (w, [])
    end.
Proof.
  unfold step. destruct (find_id c (pending w)) as [call|]; [|reflexivity].
  destruct (call_settled call) as [[e|]|]; [| |reflexivity].
  - rewrite processJobs_resume_rejected. reflexivity.
  - rewrite processJobs_resume_fulfilled. reflexivity.
Qed.

(** [processJobs] up to its [await], by cases on [this.jobs]. *)
Lemma processJobs_empty (k : origin) w :
  jobs (this w) = JsMap.empty ->
  run (processJobs (Reason := Reason) k) w =
    (mkWorld (set_isProcessing false
                (set_currentMemory 0%Q (set_timeoutId None (this w))))
             (match timeoutId (this w) with
              | Some h => drop h (timers w)
              | None => timers w
              end)
             (pending w) (nextTimer w) (nextCall w) (uuidCalls w),
     match k with
     | FromSchedule | FromTimer => []
     | FromForceProcess => [ForceProcessResolved]
     | FromShutdown => [ShutdownResolved]
     end).
Proof.
  open_world w. simpl. intros ->. destruct tid, k; reflexivity.
Qed.

Lemma processJobs_nonempty (k : origin) w :
  jobs (this w) <> JsMap.empty ->
  run (processJobs (Reason := Reason) k) w =
    (mkWorld (set_currentMemory 0%Q
                (set_jobs JsMap.empty
                   (set_timeoutId None (set_isProcessing true (this w)))))
             (match timeoutId (this w) with
              | Some h => drop h (timers w)
              | None => timers w
              end)
             (pending w ++ [(nextCall w, mkCall (jobs (this w)) k None)])
             (nextTimer w) (S (nextCall w)) (uuidCalls w),
     [Invoked (nextCall w) (batchProcessor (this w)) (jobs (this w))]).
Proof.
  open_world w. simpl. intros Hne.
  destruct js as [|j js]; [contradiction|].
  destruct tid; reflexivity.
Qed.

Lemma submit_when_shut_down w (job : T) :
  shutDown (this w) = true ->
  step w (CallSubmit job) = (w, [SubmitRejected "MicroBatcher is shutdown"]).
Proof.
  open_world w. simpl. intros ->. reflexivity.
Qed.

(** Once the batcher is shut down with nothing pending in [jobs], it stays
    so and no event makes it call [batchProcessor]. *)
Lemma stopped_step w e :
  shutDown (this w) = true -> jobs (this w) = JsMap.empty ->
  shutDown (this (fst (step w e))) = true
  /\ jobs (this (fst (step w e))) = JsMap.empty
  /\ forall c p s, ~ In (Invoked c p s) (snd (step w e)).
Proof.
  intros Hdown Hjobs. destruct e as [job| | | |h|c r|c].
  - rewrite (submit_when_shut_down _ _ Hdown). simpl.
    repeat split; auto. intros c p s [H|[]]; discriminate.
  - open_world w. simpl in Hdown, Hjobs. subst.
    destruct tid; simpl; repeat split; auto; intros c p s [H|[]]; discriminate.
  - open_world w. simpl in Hdown, Hjobs. subst.
    destruct tid; simpl; repeat split; auto; intros c p s [H|[]]; discriminate.
  - unfold step, forceProcess. rewrite (processJobs_empty _ _ Hjobs).
    open_world w. simpl in Hdown, Hjobs. subst. simpl.
    repeat split; auto. intros c p s [H|[]]; discriminate.
  - unfold step. destruct (find_id h (timers w)); [|simpl; auto].
    rewrite processJobs_empty by exact Hjobs.
    open_world w. simpl in Hdown, Hjobs. subst. simpl.
    repeat split; auto.
  - rewrite step_settles.
    destruct (find_id c (pending w)) as [call|]; [|simpl; auto].
    destruct (call_settled call); [simpl; auto|].
    destruct r as [rs|err]; open_world w; simpl in Hdown, Hjobs; subst;
      simpl; repeat split; auto.
  - rewrite step_resumes.
    destruct (find_id c (pending w)) as [call|]; [|simpl; auto].
    destruct (call_settled call) as [[err|]|]; [| |simpl; auto];
      open_world w; simpl in Hdown, Hjobs; subst; simpl;
      repeat split; auto; intros c' p s;
      destruct (call_origin call); simpl; intuition discriminate.
Qed.

Lemma stopped_steps es : forall w,
  shutDown (this w) = true -> jobs (this w) = JsMap.empty ->
  forall c p s, ~ In (Invoked c p s) (snd (steps w es)).
Proof.
  induction es as [|e es IH]; intros w Hdown Hjobs c p s; simpl; [tauto|].
  destruct (stopped_step w e Hdown Hjobs) as (Hd & Hj & Hn).
  destruct (step w e) as [w1 o1]. simpl in Hd, Hj, Hn.
  specialize (IH w1 Hd Hj c p s).
  destruct (steps w1 es) as [w2 o2]. simpl in *.
  intros H. apply in_app_or in H. destruct H as [H|H]; [exact (Hn _ _ _ H)|auto].
Qed.

(** *** Single flight *)

Lemma cleared_timers (tid : option nat) (ts : list (nat * option Z)) :
  (forall x, In x ts -> tid = Some (fst x)) ->
  match tid with Some h => drop h ts | None => ts end = [].
Proof.
  intros H. destruct tid as [h|].
  - apply drop_all_same. intros x Hx. specialize (H x Hx). congruence.
  - destruct ts as [|x ts]; [reflexivity|].
    specialize (H x (or_introl eq_refl)). discriminate.
Qed.

Lemma single_flight_processJobs (k : origin) w :
  pending w = [] ->
  (forall x, In x (timers w) -> timeoutId (this w) = Some (fst x)) ->
  single_flight (fst (run (processJobs (Reason := Reason) k) w)).
Proof.
  intros Hp Ht. pose proof (@cleared_timers _ _ Ht) as Hc.
  destruct (jobs (this w)) as [|j js] eqn:Hj.
  - rewrite (processJobs_empty _ _ Hj). unfold single_flight, timer_owned.
    cbn [fst pending timers this]. rewrite Hc, Hp.
    open_world w. simpl. repeat split; auto; try contradiction; discriminate.
  - rewrite processJobs_nonempty by (rewrite Hj; discriminate).
    unfold single_flight, timer_owned. cbn [fst pending timers this]. rewrite Hc, Hp.
    open_world w. simpl. repeat split; auto; contradiction.
Qed.

Lemma shutdown_unfold w :
  run shutdown w =
    let w1 := mkWorld (set_shutDown true (this w))
                      (match timeoutId (this w) with
                       | Some h => drop h (timers w)
                       | None => timers w
                       end)
                      (pending w) (nextTimer w) (nextCall w) (uuidCalls w) in
    if Nat.ltb 0 (JsMap.size (jobs (this w)))
    then run (processJobs (Reason := Reason) FromShutdown) w1
    else (w1, [ShutdownResolved]).
Proof.
  open_world w. destruct tid, js; cbv; reflexivity.
Qed.

(** The world a [submit] leaves when the batcher is not shut down, by cases
    on the serialisation, on [isProcessing] and on the two triggers. *)
Lemma submit_unfold w (job : T) :
  shutDown (this w) = false ->
  fst (step w (CallSubmit job)) =
    match calculateMemory byteLength_json [job] with
    | None =>
        mkWorld (set_jobs (JsMap.set (randomUUID (uuidCalls w)) job
                                     (jobs (this w)))
                          (this w))
                (timers w) (pending w) (nextTimer w) (nextCall w)
                (S (uuidCalls w))
    | Some size =>
        let w1 := mkWorld (set_currentMemory
                             (currentMemory (this w) + size)%Q
                             (set_jobs (JsMap.set (randomUUID (uuidCalls w)) job
                                                  (jobs (this w)))
                                       (this w)))
                          (timers w) (pending w) (nextTimer w) (nextCall w)
                          (S (uuidCalls w)) in
        if isProcessing (this w) then w1
        else if (batchSize (this w) <=? Z.of_nat (JsMap.size (jobs (this w1))))%Z
                || (autoProcessOnMemoryLimit (this w)
                    && Qle_bool (memoryLimit (this w)) (currentMemory (this w1)))
        then fst (run (processJobs (Reason := Reason) FromSchedule) w1)
        else mkWorld (set_timeoutId (Some (nextTimer w)) (this w1))
                     (match timeoutId (this w) with
                      | Some h => drop h (timers w)
                      | None => timers w
                      end ++ [(nextTimer w, batchTimeout (this w))])
                     (pending w) (S (nextTimer w)) (nextCall w) (S (uuidCalls w))
    end.
Proof.
  open_world w. simpl. intros ->. exec.
  destruct (calculateMemory byteLength_json [job]) as [size|]; [|reflexivity].
  destruct busy; [reflexivity|].
  destruct ((bsz <=? Z.of_nat (JsMap.size (JsMap.set (randomUUID uc) job js)))%Z
            || auto && Qle_bool lim (mem + size)).
  - destruct tid;
      destruct (Nat.eqb (JsMap.size (JsMap.set (randomUUID uc) job js)) 0);
      reflexivity.
  - destruct tid; reflexivity.
Qed.

Lemma processJobs_timers (k : origin) w :
  timers (fst (run (processJobs (Reason := Reason) k) w)) =
    match timeoutId (this w) with
    | Some h => drop h (timers w)
    | None => timers w
    end.
Proof.
  destruct (jobs (this w)) as [|j js] eqn:Hj.
  - rewrite (processJobs_empty _ _ Hj). reflexivity.
  - rewrite processJobs_nonempty by (rewrite Hj; discriminate). reflexivity.
Qed.

Lemma stop_unfold w :
  fst (step w CallStop) =
    mkWorld (set_jobs JsMap.empty (set_shutDown true (this w)))
            (match timeoutId (this w) with
             | Some h => drop h (timers w)
             | None => timers w
             end)
            (pending w) (nextTimer w) (nextCall w) (uuidCalls w).
Proof.
  open_world w. destruct tid; reflexivity.
Qed.

Lemma no_timer_owned w : timers w = [] -> timer_owned w.
Proof.
  intros H x Hx. rewrite H in Hx. contradiction.
Qed.

(** Timer ownership is kept by every transition. *)
Lemma timer_owned_step w e : timer_owned w -> timer_owned (fst (step w e)).
Proof.
  intros Htid. pose proof (@cleared_timers _ _ Htid) as Hclear.
  destruct e as [job| | | |h|c r|c].
  - destruct (shutDown (this w)) eqn:Hdown.
    { rewrite (submit_when_shut_down _ _ Hdown). exact Htid. }
    rewrite (submit_unfold _ _ Hdown).
    destruct (calculateMemory byteLength_json [job]) as [size|];
      [|open_world w; exact Htid].
    cbv zeta. destruct (isProcessing (this w)).
    { open_world w. exact Htid. }
    match goal with |- context [if ?c then _ else _] => destruct c end.
    + apply no_timer_owned. rewrite processJobs_timers. cbn [timers this].
      open_world w. exact Hclear.
    + rewrite Hclear. open_world w. intros x [<-|[]]. reflexivity.
  - unfold step. rewrite shutdown_unfold. cbv zeta. rewrite Hclear.
    destruct (Nat.ltb 0 (JsMap.size (jobs (this w)))).
    + apply no_timer_owned. rewrite processJobs_timers. cbn [timers this].
      open_world w. simpl. now destruct tid.
    + apply no_timer_owned. reflexivity.
  - rewrite stop_unfold, Hclear. apply no_timer_owned. reflexivity.
  - apply no_timer_owned. unfold step, forceProcess.
    rewrite processJobs_timers. exact Hclear.
  - unfold step. destruct (find_id h (timers w)); [|exact Htid].
    apply no_timer_owned. rewrite processJobs_timers. cbn [timers this].
    apply cleared_timers. intros x Hx. apply Htid.
    unfold drop in Hx. apply filter_In in Hx. tauto.
  - rewrite step_settles.
    destruct (find_id c (pending w)) as [call|]; [|exact Htid].
    destruct (call_settled call); [exact Htid|].
    destruct r as [rs|err]; open_world w; exact Htid.
  - rewrite step_resumes.
    destruct (find_id c (pending w)) as [call|]; [|exact Htid].
    destruct (call_settled call) as [[err|]|]; [| |exact Htid];
      open_world w; exact Htid.
Qed.

(** In every world reached from a new batcher the armed timer, if any, is
    the one [timeoutId] holds. *)
Lemma timer_owned_steps es : forall w,
  timer_owned w -> timer_owned (fst (steps w es)).
Proof.
  induction es as [|e es IH]; intros w Hw; simpl; [exact Hw|].
  pose proof (timer_owned_step e Hw) as H1. specialize (IH _ H1).
  destruct (step w e) as [w1 o1]. simpl in *.
  destruct (steps w1 es) as [w2 o2]. exact IH.
Qed.

Lemma timer_owned_boot (b : YaMicroBatcher T Processor) : timer_owned (boot b).
Proof. apply no_timer_owned. reflexivity. Qed.

Lemma single_flight_step w e :
  single_flight w ->
  match e with
  | CallForceProcess | CallShutdown => pending w = []
  | _ => True
  end ->
  single_flight (fst (step w e)).
Proof.
  intros (Hlen & Hbusy & Hidle & Htid) Hok.
  destruct e as [job| | | |h|c r|c].
  - destruct (shutDown (this w)) eqn:Hdown.
    { rewrite (submit_when_shut_down _ _ Hdown). repeat split; assumption. }
    rewrite (submit_unfold _ _ Hdown).
    destruct (calculateMemory byteLength_json [job]) as [size|];
      [|open_world w; simpl in *; repeat split; auto].
    cbv zeta. destruct (isProcessing (this w)) eqn:Hp.
    { open_world w. simpl in *. repeat split; auto. }
    assert (Hnone : pending w = []).
    { destruct (pending w); [reflexivity|].
      assert (false = true) by (apply Hbusy; discriminate). discriminate. }
    match goal with |- context [if ?c then _ else _] => destruct c end.
    + apply single_flight_processJobs; [exact Hnone|].
      open_world w. exact Htid.
    + unfold single_flight, timer_owned. cbn [pending timers this].
      rewrite (@cleared_timers _ _ Htid), Hnone.
      open_world w. simpl in *. repeat split; auto; try contradiction.
      * congruence.
      * intros x [<-|[]]. reflexivity.
  - unfold step. rewrite shutdown_unfold. cbv zeta.
    rewrite (@cleared_timers _ _ Htid).
    destruct (Nat.ltb 0 (JsMap.size (jobs (this w)))).
    + apply single_flight_processJobs; [exact Hok|].
      cbn [timers]. intros x [].
    + unfold single_flight, timer_owned. cbn [fst pending timers this]. rewrite Hok.
      simpl. repeat split; auto; contradiction.
  - assert (E : fst (step w CallStop) =
              mkWorld (set_jobs JsMap.empty (set_shutDown true (this w)))
                      (match timeoutId (this w) with
                       | Some h => drop h (timers w)
                       | None => timers w
                       end)
                      (pending w) (nextTimer w) (nextCall w) (uuidCalls w)).
    { open_world w. destruct tid; reflexivity. }
    rewrite E, (@cleared_timers _ _ Htid). unfold single_flight, timer_owned.
    cbn [pending timers this].
    open_world w. simpl in *. repeat split; auto; contradiction.
  - apply single_flight_processJobs; assumption.
  - unfold step. destruct (find_id h (timers w)) eqn:Hh;
      [|repeat split; assumption].
    assert (Hp : isProcessing (this w) = false).
    { destruct (isProcessing (this w)); [|reflexivity].
      rewrite Hidle in Hh by reflexivity. discriminate. }
    apply single_flight_processJobs; cbn [pending timers this].
    + destruct (pending w); [reflexivity|].
      assert (false = true) by (rewrite <- Hp; apply Hbusy; discriminate).
      discriminate.
    + intros x Hx. apply Htid. unfold drop in Hx.
      apply filter_In in Hx. tauto.
  - rewrite step_settles.
    destruct (find_id c (pending w)) as [call|] eqn:Hc;
      [|repeat split; assumption].
    destruct (call_settled call); [repeat split; assumption|].
    assert (Hb : isProcessing (this w) = true).
    { apply Hbusy. intros E. rewrite E in Hc. discriminate. }
    destruct r as [rs|err]; unfold single_flight, timer_owned;
      cbn [fst pending timers this]; rewrite length_mark;
      open_world w; simpl in *; repeat split; auto.
  - rewrite step_resumes.
    destruct (find_id c (pending w)) as [call|] eqn:Hc;
      [|repeat split; assumption].
    assert (Hdrop : drop c (pending w) = []).
    { destruct (pending w) as [|[c' call'] [|y ps']]; simpl in *;
        [discriminate| |lia].
      destruct (Nat.eqb c' c); [reflexivity | discriminate]. }
    destruct (call_settled call) as [[err|]|]; [| |repeat split; assumption];
      unfold single_flight, timer_owned;
      cbn [fst pending timers this]; rewrite Hdrop;
      open_world w; simpl in *; repeat split; auto; try contradiction;
      discriminate.
Qed.

Lemma single_flight_steps es : forall w,
  single_flight w -> calls_do_not_overlap byteLength_json randomUUID w es = true ->
  single_flight (fst (steps w es)).
Proof.
  induction es as [|e es IH]; intros w Hinv Hok; simpl; [exact Hinv|].
  assert (Hstep : single_flight (fst (step w e))
                  /\ calls_do_not_overlap byteLength_json randomUUID
                       (fst (step w e)) es = true).
  { simpl in Hok. split.
    - apply single_flight_step; [exact Hinv|].
      destruct e; auto; destruct (pending w); auto; discriminate.
    - destruct e; auto; destruct (pending w); auto; discriminate. }
  destruct Hstep as (H1 & H2). specialize (IH _ H1 H2).
  destruct (step w e) as [w1 o1]. simpl in *.
  destruct (steps w1 es) as [w2 o2]. exact IH.
Qed.

(** C3, as amended: starting from a fresh batcher, as long as [forceProcess]
    and [shutdown] are only called while no batch is outstanding, at most
    one batch is outstanding at any time (and so at most one promise of
    [batchProcessor] is unsettled).  A batch is outstanding from the
    call of [batchProcessor] until the [processJobs] that made the call has
    run to its end (results recorded and [isProcessing] reset, or the
    failure thrown), which is later than the settlement of the promise of
    [batchProcessor]: [pending] lists these batches.  Trigger evaluation
    after [submit] checks [isProcessing], and no timer is armed while a
    batch is outstanding; [forceProcess] and [shutdown] make no such
    check. *)
Theorem C3_single_flight_without_overlapping_calls
        (b : YaMicroBatcher T Processor) es :
  calls_do_not_overlap byteLength_json randomUUID (boot b) es = true ->
  List.length (pending (fst (steps (boot b) es))) <= 1
  /\ List.length (unsettled (fst (steps (boot b) es))) <= 1.
Proof.
  intros Hok.
  assert (H : List.length (pending (fst (steps (boot b) es))) <= 1).
  { apply (single_flight_steps es (w := boot b)); [|exact Hok].
    unfold single_flight, timer_owned, boot. simpl.
    repeat split; auto; contradiction. }
  split; [exact H|].
  unfold unsettled.
  eapply Nat.le_trans; [apply length_filter_le|exact H].
Qed.

(** After a fulfilled [batchProcessor] promise the rest of [processJobs]
    empties [this.jobs], whatever was stored there since the batch was
    taken, and resets [isProcessing]. *)
Lemma fulfilled_resumption w c (call : Call T Reason) :
  find_id c (pending w) = Some call ->
  call_settled call = Some None ->
  jobs (this (fst (step w (ProcessJobsResumes c)))) = JsMap.empty
  /\ isProcessing (this (fst (step w (ProcessJobsResumes c)))) = false.
Proof.
  intros Hc Hs. rewrite step_resumes, Hc, Hs.
  open_world w. split; reflexivity.
Qed.

(** A rejected [batchProcessor] promise changes no field of the batcher,
    neither when the rejection arrives nor when [processJobs] is resumed
    with it: [isProcessing] stays as [processJobs] set it. *)
Lemma rejected_settlement w c (call : Call T Reason) (err : Reason) :
  find_id c (pending w) = Some call ->
  this (fst (step w (ProcessorSettles c (Rejected err)))) = this w.
Proof.
  intros Hc. rewrite step_settles, Hc.
  destruct (call_settled call); reflexivity.
Qed.

Lemma rejected_resumption w c (call : Call T Reason) (err : Reason) :
  find_id c (pending w) = Some call ->
  call_settled call = Some (Some err) ->
  this (fst (step w (ProcessJobsResumes c))) = this w.
Proof.
  intros Hc Hs. rewrite step_resumes, Hc, Hs. reflexivity.
Qed.

(** A rejection is logged with [console.error] exactly when the batch was
    started by [processingShedule]; a batch started by the timer leaves it
    unhandled. *)
Lemma rejected_resumption_report w c (call : Call T Reason) (err : Reason) :
  find_id c (pending w) = Some call ->
  call_settled call = Some (Some err) ->
  snd (step w (ProcessJobsResumes c)) =
    match call_origin call with
    | FromSchedule => [ConsoleError err]
    | FromTimer => [UnhandledRejection err]
    | FromForceProcess => [ForceProcessRejected err]
    | FromShutdown => [ShutdownRejected err]
    end.
Proof.
  intros Hc Hs. rewrite step_resumes, Hc, Hs. reflexivity.
Qed.

(** *** The lifecycle operations *)

(** C8: [submit] on a batcher that is shut down is rejected with the
    message "MicroBatcher is shutdown" and changes nothing: the world after
    the call is the world before it (no identifier drawn, [jobs] and
    [currentMemory] as they were, no timer armed or cancelled, no call of
    [batchProcessor]). *)
Theorem C8_submit_after_shutdown_rejected w (job : T) :
  shutDown (this w) = true ->
  step w (CallSubmit job) = (w, [SubmitRejected "MicroBatcher is shutdown"])
  /\ uuidCalls (fst (step w (CallSubmit job))) = uuidCalls w
  /\ jobs (this (fst (step w (CallSubmit job)))) = jobs (this w)
  /\ currentMemory (this (fst (step w (CallSubmit job)))) = currentMemory (this w)
  /\ timers (fst (step w (CallSubmit job))) = timers w
  /\ pending (fst (step w (CallSubmit job))) = pending w.
Proof.
  intros Hdown. rewrite (submit_when_shut_down _ _ Hdown). simpl. tauto.
Qed.

(** C7: [stop] sets the shut-down flag, replaces [jobs] by an empty map,
    cancels the timer of [timeoutId] (which leaves no timer armed in a world
    where the armed timer is the one [timeoutId] holds, as it is in every
    world reached from a new batcher) and resolves without calling
    [batchProcessor]; [jobCount] is 0 afterwards, and whatever happens later
    [batchProcessor] is not called again, so it never sees the discarded
    jobs. *)
Theorem C7_stop_discards w :
  snd (step w CallStop) = [StopResolved]
  /\ shutDown (this (fst (step w CallStop))) = true
  /\ jobs (this (fst (step w CallStop))) = JsMap.empty
  /\ (forall h, timeoutId (this w) = Some h ->
                find_id h (timers (fst (step w CallStop))) = None)
  /\ (timer_owned w -> timers (fst (step w CallStop)) = [])
  /\ jobCount (this (fst (step w CallStop))) = 0
  /\ (forall es c p s,
        ~ In (Invoked c p s) (snd (steps (fst (step w CallStop)) es))).
Proof.
  assert (Htimers : timer_owned w -> timers (fst (step w CallStop)) = []).
  { intros Htid. rewrite stop_unfold. exact (@cleared_timers _ _ Htid). }
  assert (H : snd (step w CallStop) = [StopResolved]
              /\ shutDown (this (fst (step w CallStop))) = true
              /\ jobs (this (fst (step w CallStop))) = JsMap.empty
              /\ (forall h, timeoutId (this w) = Some h ->
                    find_id h (timers (fst (step w CallStop))) = None)).
  { open_world w. destruct tid as [h|]; simpl; repeat split; auto.
    - intros h' E. injection E as <-. apply find_id_drop.
    - discriminate. }
  destruct H as (Hout & Hdown & Hjobs & Htimer).
  repeat split; auto.
  - unfold jobCount. rewrite Hjobs. now destruct (isProcessing _).
  - intros es. apply stopped_steps; assumption.
Qed.

(** C6: [shutdown] sets the shut-down flag and cancels the timer of
    [timeoutId], which leaves no timer armed in a world where the armed
    timer is the one [timeoutId] holds (every world reached from a new
    batcher is such a world).  With no job pending it resolves at once and
    [batchProcessor] is not called.  With N > 0 jobs pending it calls
    [batchProcessor] once, on the map of all N jobs, and does not resolve
    in that step: the call is left pending with [shutdown] as the one
    waiting for it; [shutdown] does not resolve when the promise of that
    call settles either, it resolves when the [processJobs] that made the
    call is resumed after the fulfilment and has run to its end (and is
    rejected when the promise was rejected). *)
Theorem C6_shutdown_drains w :
  shutDown (this (fst (step w CallShutdown))) = true
  /\ (forall h, timeoutId (this w) = Some h ->
                find_id h (timers (fst (step w CallShutdown))) = None)
  /\ (timer_owned w -> timers (fst (step w CallShutdown)) = [])
  /\ (JsMap.size (jobs (this w)) = 0 ->
        snd (step w CallShutdown) = [ShutdownResolved]
        /\ pending (fst (step w CallShutdown)) = pending w)
  /\ (0 < JsMap.size (jobs (this w)) ->
        snd (step w CallShutdown)
          = [Invoked (nextCall w) (batchProcessor (this w)) (jobs (this w))]
        /\ pending (fst (step w CallShutdown))
             = pending w
               ++ [(nextCall w, mkCall (jobs (this w)) FromShutdown None)]
        /\ jobs (this (fst (step w CallShutdown))) = JsMap.empty
        /\ (find_id (nextCall w) (pending w) = None ->
            forall r,
              snd (step (fst (step w CallShutdown))
                        (ProcessorSettles (nextCall w) r)) = []
              /\ snd (step (fst (step (fst (step w CallShutdown))
                                      (ProcessorSettles (nextCall w) r)))
                           (ProcessJobsResumes (nextCall w)))
                 = match r with
                   | Fulfilled _ => [ShutdownResolved]
                   | Rejected err => [ShutdownRejected err]
                   end)).
Proof.
  assert (Htimers : timer_owned w -> timers (fst (step w CallShutdown)) = []).
  { intros Htid. unfold step. rewrite shutdown_unfold. cbv zeta.
    rewrite (@cleared_timers _ _ Htid).
    destruct (Nat.ltb 0 (JsMap.size (jobs (this w)))); [|reflexivity].
    rewrite processJobs_timers. cbn [timers this].
    open_world w. simpl. now destruct tid. }
  split; [|split; [|split; [exact Htimers|clear Htimers; split]]].
  - unfold step. rewrite shutdown_unfold. cbv zeta.
    destruct (jobs (this w)) as [|j js] eqn:Hj.
    + reflexivity.
    + change (Nat.ltb 0 (JsMap.size (j :: js))) with true. cbv iota.
      rewrite processJobs_nonempty
        by (open_world w; simpl in Hj |- *; rewrite Hj; discriminate).
      reflexivity.
  - intros h E. unfold step. rewrite shutdown_unfold. cbv zeta.
    destruct (Nat.ltb 0 (JsMap.size (jobs (this w)))).
    + rewrite processJobs_timers. open_world w. simpl in E. subst tid.
      fields. apply find_id_drop.
    + fields. rewrite E. apply find_id_drop.
  - intros Hnone. unfold step. rewrite shutdown_unfold. cbv zeta.
    rewrite Hnone. split; reflexivity.
  - intros Hpos. change (step w CallShutdown) with (run shutdown w).
    rewrite shutdown_unfold. cbv zeta.
    rewrite (proj2 (Nat.ltb_lt _ _) Hpos).
    rewrite processJobs_nonempty
      by (open_world w; fields; destruct js; [simpl in Hpos; lia|discriminate]).
    fields.
    split; [open_world w; reflexivity|].
    split; [open_world w; reflexivity|].
    split; [reflexivity|].
    intros Hfresh r. rewrite step_settles. cbn [pending].
    rewrite find_id_app_fresh by exact Hfresh. cbn [call_settled].
    split; [reflexivity|].
    rewrite step_resumes. cbn [fst pending].
    rewrite mark_app_fresh by exact Hfresh.
    rewrite find_id_app_fresh by exact Hfresh.
    destruct r as [rs|err]; reflexivity.
Qed.

(** *** More on [submit] *)

(** What a [submit] of a payload that can be serialised does on a batcher
    that is not shut down, world and outputs, by cases on [isProcessing]
    and on the two triggers. *)
Lemma submit_step w (job : T) (size : Q) :
  shutDown (this w) = false ->
  calculateMemory byteLength_json [job] = Some size ->
  let id := randomUUID (uuidCalls w) in
  let js' := JsMap.set id job (jobs (this w)) in
  let mem' := (currentMemory (this w) + size)%Q in
  let b1 := set_currentMemory mem' (set_jobs js' (this w)) in
  let cleared := match timeoutId (this w) with
                 | Some h => drop h (timers w)
                 | None => timers w
                 end in
  let a := if returnAck (this w) then Some (mkAck SUBMITTED None id) else None in
  step w (CallSubmit job) =
    if isProcessing (this w) then
      (mkWorld b1 (timers w) (pending w) (nextTimer w) (nextCall w)
               (S (uuidCalls w)),
       [SubmitResolved a])
    else if (batchSize (this w) <=? Z.of_nat (JsMap.size js'))%Z
            || (autoProcessOnMemoryLimit (this w)
                && Qle_bool (memoryLimit (this w)) mem')
    then
      (mkWorld (set_currentMemory 0%Q
                  (set_jobs JsMap.empty
                     (set_timeoutId None (set_isProcessing true b1))))
               cleared
               (pending w ++ [(nextCall w, mkCall js' FromSchedule None)])
               (nextTimer w) (S (nextCall w)) (S (uuidCalls w)),
       [Invoked (nextCall w) (batchProcessor (this w)) js'; SubmitResolved a])
    else
      (mkWorld (set_timeoutId (Some (nextTimer w)) b1)
               (cleared ++ [(nextTimer w, batchTimeout (this w))])
               (pending w) (S (nextTimer w)) (nextCall w) (S (uuidCalls w)),
       [SubmitResolved a]).
Proof.
  open_world w. simpl. intros -> Hsize. exec. rewrite Hsize.
  destruct busy; [reflexivity|].
  destruct ((bsz <=? Z.of_nat (JsMap.size (JsMap.set (randomUUID uc) job js)))%Z
            || auto && Qle_bool lim (mem + size)).
  - destruct tid; exec; rewrite JsMapFacts.size_set_not_0; reflexivity.
  - destruct tid; reflexivity.
Qed.

(** What a [submit] of a payload [JSON.stringify] throws on does on a
    batcher that is not shut down: the job is stored under a new
    identifier, then [calculateMemory] throws; [currentMemory] is not
    written, [processingShedule] is not reached and the promise is
    rejected. *)
Lemma submit_throws w (job : T) :
  shutDown (this w) = false ->
  calculateMemory byteLength_json [job] = None ->
  step w (CallSubmit job) =
    (mkWorld (set_jobs (JsMap.set (randomUUID (uuidCalls w)) job (jobs (this w)))
                       (this w))
             (timers w) (pending w) (nextTimer w) (nextCall w) (S (uuidCalls w)),
     [SubmitRejectedTypeError]).
Proof.
  open_world w. simpl. intros -> Hsize. exec. rewrite Hsize. reflexivity.
Qed.

(** When the call of [submit] returns, the identifier of the
    acknowledgement is the key the job is stored under, provided the
    payload can be serialised and the call starts no batch. *)
Lemma ack_names_stored_key w (job : T) (size : Q) :
  shutDown (this w) = false ->
  returnAck (this w) = true ->
  calculateMemory byteLength_json [job] = Some size ->
  (Z.of_nat (JsMap.size (JsMap.set (randomUUID (uuidCalls w)) job (jobs (this w))))
     < batchSize (this w))%Z ->
  autoProcessOnMemoryLimit (this w)
    && Qle_bool (memoryLimit (this w)) (currentMemory (this w) + size) = false ->
  snd (step w (CallSubmit job))
    = [SubmitResolved (Some (mkAck SUBMITTED None (randomUUID (uuidCalls w))))]
  /\ JsMap.get (randomUUID (uuidCalls w))
               (jobs (this (fst (step w (CallSubmit job))))) = Some job
  /\ jobStatus (this (fst (step w (CallSubmit job)))) (randomUUID (uuidCalls w))
       = mkAck SUBMITTED None (randomUUID (uuidCalls w)).
Proof.
  intros Hdown Hack Hser Hsize Hmem.
  rewrite (submit_step _ _ Hdown Hser). cbv zeta.
  apply Z.leb_gt in Hsize. rewrite Hsize, Hmem, Hack. cbv beta iota delta [orb].
  unfold jobStatus.
  destruct (isProcessing (this w)); open_world w; fields;
    rewrite JsMapFacts.has_set_same, JsMapFacts.get_set_same; auto.
Qed.

(** X4: a job that can be serialised, submitted while [isProcessing] is
    set, is only stored: it is put in [jobs] under a new identifier and its
    size is added to [currentMemory]; no timer is armed or cancelled,
    [batchProcessor] is not called, and the call resolves. *)
Theorem submit_while_processing_only_stores w (job : T) (size : Q) :
  shutDown (this w) = false ->
  isProcessing (this w) = true ->
  calculateMemory byteLength_json [job] = Some size ->
  snd (step w (CallSubmit job))
    = [SubmitResolved (if returnAck (this w)
                       then Some (mkAck SUBMITTED None (randomUUID (uuidCalls w)))
                       else None)]
  /\ jobs (this (fst (step w (CallSubmit job))))
       = JsMap.set (randomUUID (uuidCalls w)) job (jobs (this w))
  /\ currentMemory (this (fst (step w (CallSubmit job))))
       = (currentMemory (this w) + size)%Q
  /\ timers (fst (step w (CallSubmit job))) = timers w
  /\ timeoutId (this (fst (step w (CallSubmit job)))) = timeoutId (this w)
  /\ pending (fst (step w (CallSubmit job))) = pending w
  /\ isProcessing (this (fst (step w (CallSubmit job)))) = true.
Proof.
  intros Hdown Hbusy Hser. rewrite (submit_step _ _ Hdown Hser). cbv zeta.
  rewrite Hbusy. open_world w. simpl in Hbusy. subst busy.
  repeat split; reflexivity.
Qed.

(** X5: debounce.  A [submit] of a payload that can be serialised, on a
    batcher that is neither shut down nor processing, and that meets
    neither trigger, cancels the timer of [timeoutId] and arms a new one
    with delay [batchTimeout]: where the armed timer was the one
    [timeoutId] held, the new timer is the only one armed afterwards, so
    the earlier deadline is gone.  [batchProcessor] is not called. *)
Theorem submit_rearms_timer w (job : T) (size : Q) :
  shutDown (this w) = false ->
  isProcessing (this w) = false ->
  calculateMemory byteLength_json [job] = Some size ->
  (Z.of_nat (JsMap.size (JsMap.set (randomUUID (uuidCalls w)) job (jobs (this w))))
     < batchSize (this w))%Z ->
  autoProcessOnMemoryLimit (this w)
    && Qle_bool (memoryLimit (this w)) (currentMemory (this w) + size) = false ->
  timer_owned w ->
  timers (fst (step w (CallSubmit job)))
    = [(nextTimer w, batchTimeout (this w))]
  /\ timeoutId (this (fst (step w (CallSubmit job)))) = Some (nextTimer w)
  /\ pending (fst (step w (CallSubmit job))) = pending w
  /\ isProcessing (this (fst (step w (CallSubmit job)))) = false
  /\ forall c p s, ~ In (Invoked c p s) (snd (step w (CallSubmit job))).
Proof.
  intros Hdown Hbusy Hser Hsize Hmem Hown.
  rewrite (submit_step _ _ Hdown Hser). cbv zeta.
  apply Z.leb_gt in Hsize. rewrite Hbusy, Hsize, Hmem. cbv beta iota delta [orb].
  rewrite (@cleared_timers _ _ Hown).
  open_world w. simpl in Hbusy. subst busy.
  repeat split; try reflexivity.
  intros c p s [H|[]]. discriminate.
Qed.

(** X6: a [submit] calls [batchProcessor] exactly when the batcher is not
    shut down, the payload can be serialised, the batcher is not
    processing, and the pending count after insertion has reached
    [batchSize] or ([autoProcessOnMemoryLimit] is set and) the running
    memory estimate has reached [memoryLimit].  The call then gets the map
    of all pending jobs including the new one, [jobs] is left empty,
    [currentMemory] is 0, [isProcessing] is set and [timeoutId] is
    [null]. *)
Theorem submit_fires_iff w (job : T) :
  let js' := JsMap.set (randomUUID (uuidCalls w)) job (jobs (this w)) in
  let fires :=
    match calculateMemory byteLength_json [job] with
    | Some size =>
        negb (shutDown (this w)) && negb (isProcessing (this w))
        && ((batchSize (this w) <=? Z.of_nat (JsMap.size js'))%Z
            || (autoProcessOnMemoryLimit (this w)
                && Qle_bool (memoryLimit (this w))
                            (currentMemory (this w) + size)))
    | None => false
    end in
  ((exists c p s, In (Invoked c p s) (snd (step w (CallSubmit job))))
   <-> fires = true)
  /\ (fires = true ->
      In (Invoked (nextCall w) (batchProcessor (this w)) js')
         (snd (step w (CallSubmit job)))
      /\ pending (fst (step w (CallSubmit job)))
           = pending w ++ [(nextCall w, mkCall js' FromSchedule None)]
      /\ jobs (this (fst (step w (CallSubmit job)))) = JsMap.empty
      /\ currentMemory (this (fst (step w (CallSubmit job)))) = 0%Q
      /\ isProcessing (this (fst (step w (CallSubmit job)))) = true
      /\ timeoutId (this (fst (step w (CallSubmit job)))) = None).
Proof.
  cbv zeta. destruct (shutDown (this w)) eqn:Hdown.
  { rewrite (submit_when_shut_down _ _ Hdown).
    assert (Hnot : match calculateMemory byteLength_json [job] with
                   | Some size =>
                       negb true && negb (isProcessing (this w))
                       && ((batchSize (this w)
                            <=? Z.of_nat
                                  (JsMap.size
                                     (JsMap.set (randomUUID (uuidCalls w)) job
                                                (jobs (this w)))))%Z
                           || (autoProcessOnMemoryLimit (this w)
                               && Qle_bool (memoryLimit (this w))
                                           (currentMemory (this w) + size)))
                   | None => false
                   end = false)
      by (destruct (calculateMemory byteLength_json [job]); reflexivity).
    rewrite Hnot. simpl. split; [|discriminate].
    split; [|discriminate]. intros (c & p & s & [H|[]]). discriminate. }
  destruct (calculateMemory byteLength_json [job]) as [size|] eqn:Hser.
  2:{ rewrite (submit_throws _ _ Hdown Hser). simpl. split; [|discriminate].
      split; [|discriminate]. intros (c & p & s & [H|[]]). discriminate. }
  rewrite (submit_step _ _ Hdown Hser). cbv zeta.
  destruct (isProcessing (this w)) eqn:Hbusy.
  { simpl. split; [|discriminate].
    split; [|discriminate]. intros (c & p & s & [H|[]]). discriminate. }
  cbn [negb andb].
  match goal with |- context [if ?c then _ else _] => destruct c end.
  - split; [split; [reflexivity|]; intros _; eexists _, _, _; left; reflexivity|].
    intros _. open_world w. repeat split; try reflexivity. left. reflexivity.
  - split; [|discriminate].
    split; [|discriminate]. intros (c & p & s & [H|[]]). discriminate.
Qed.

(** X7: a [submit] on a batcher that is not shut down draws exactly one
    identifier and does not lose the job at once.  When the payload can be
    serialised the call resolves (to the acknowledgement with that
    identifier when [returnAck] is set, to nothing otherwise) and the job is
    then either in [jobs] under that identifier or in the map
    [batchProcessor] was just called with.  When [JSON.stringify] throws
    on the payload the promise is rejected with that error, after the job
    was stored: the job is in [jobs] under the identifier, while
    [currentMemory], the timer and the pending calls are as before. *)
Theorem submit_accepts w (job : T) :
  shutDown (this w) = false ->
  uuidCalls (fst (step w (CallSubmit job))) = S (uuidCalls w)
  /\ (forall size, calculateMemory byteLength_json [job] = Some size ->
      In (SubmitResolved (if returnAck (this w)
                          then Some (mkAck SUBMITTED None
                                           (randomUUID (uuidCalls w)))
                          else None))
         (snd (step w (CallSubmit job)))
      /\ (forall msg, ~ In (SubmitRejected msg) (snd (step w (CallSubmit job))))
      /\ ~ In SubmitRejectedTypeError (snd (step w (CallSubmit job)))
      /\ (JsMap.get (randomUUID (uuidCalls w))
                    (jobs (this (fst (step w (CallSubmit job))))) = Some job
          \/ exists s,
               In (Invoked (nextCall w) (batchProcessor (this w)) s)
                  (snd (step w (CallSubmit job)))
               /\ JsMap.get (randomUUID (uuidCalls w)) s = Some job))
  /\ (calculateMemory byteLength_json [job] = None ->
      snd (step w (CallSubmit job)) = [SubmitRejectedTypeError]
      /\ JsMap.get (randomUUID (uuidCalls w))
                   (jobs (this (fst (step w (CallSubmit job))))) = Some job
      /\ currentMemory (this (fst (step w (CallSubmit job))))
         = currentMemory (this w)
      /\ timers (fst (step w (CallSubmit job))) = timers w
      /\ timeoutId (this (fst (step w (CallSubmit job)))) = timeoutId (this w)
      /\ pending (fst (step w (CallSubmit job))) = pending w).
Proof.
  intros Hdown.
  destruct (calculateMemory byteLength_json [job]) as [size|] eqn:Hser.
  - split; [|split; [|discriminate]].
    + rewrite (submit_step _ _ Hdown Hser). cbv zeta.
      destruct (isProcessing (this w)); [reflexivity|].
      match goal with
      | |- context [if (?x || ?y) then _ else _] => destruct (x || y)
      end;
        reflexivity.
    + intros size' E. injection E as <-.
      rewrite (submit_step _ _ Hdown Hser). cbv zeta.
      destruct (isProcessing (this w)).
      { open_world w. fields. repeat split.
        - left. reflexivity.
        - intros msg [H|[]]. discriminate.
        - intros [H|[]]. discriminate.
        - left. apply JsMapFacts.get_set_same. }
      match goal with
      | |- context [if (?x || ?y) then _ else _] => destruct (x || y)
      end.
      * open_world w. fields. repeat split.
        -- right. left. reflexivity.
        -- intros msg [H|[H|[]]]; discriminate.
        -- intros [H|[H|[]]]; discriminate.
        -- right. eexists. split; [left; reflexivity|].
           apply JsMapFacts.get_set_same.
      * open_world w. fields. repeat split.
        -- left. reflexivity.
        -- intros msg [H|[]]. discriminate.
        -- intros [H|[]]. discriminate.
        -- left. apply JsMapFacts.get_set_same.
  - rewrite (submit_throws _ _ Hdown Hser).
    split; [reflexivity|]. split; [discriminate|]. intros _.
    open_world w. fields. repeat split. apply JsMapFacts.get_set_same.
Qed.

Lemma accumulate_run (js : list T) : forall w,
  shutDown (this w) = false ->
  isProcessing (this w) = false ->
  autoProcessOnMemoryLimit (this w) = false ->
  (Z.of_nat (JsMap.size (jobs (this w)) + List.length js) < batchSize (this w))%Z ->
  NoDup (JsMap.keys (jobs (this w))
         ++ map randomUUID (seq (uuidCalls w) (List.length js))) ->
  jobs (this (fst (steps w (map (@CallSubmit T Reason) js))))
    = jobs (this w)
      ++ combine (map randomUUID (seq (uuidCalls w) (List.length js))) js
  /\ jobCount (this (fst (steps w (map (@CallSubmit T Reason) js))))
       = JsMap.size (jobs (this w)) + List.length js
  /\ currentMemory (this (fst (steps w (map (@CallSubmit T Reason) js))))
       = fold_left (fun m j => match calculateMemory byteLength_json [j] with
                               | Some size => (m + size)%Q
                               | None => m
                               end)
                   js (currentMemory (this w))
  /\ pending (fst (steps w (map (@CallSubmit T Reason) js))) = pending w
  /\ nextCall (fst (steps w (map (@CallSubmit T Reason) js))) = nextCall w
  /\ (forall c p s,
        ~ In (Invoked c p s) (snd (steps w (map (@CallSubmit T Reason) js)))).
Proof.
  induction js as [|j js IH]; intros w Hdown Hbusy Hauto Hsize Hnew.
  - simpl. unfold jobCount. rewrite Hbusy, app_nil_r, Nat.add_0_r.
    repeat split; auto.
  - assert (Hfresh : ~ In (randomUUID (uuidCalls w)) (JsMap.keys (jobs (this w)))).
    { simpl in Hnew. apply NoDup_remove_2 in Hnew.
      intros H. apply Hnew. apply in_or_app. now left. }
    assert (Hstep : exists w1 o1,
              step w (CallSubmit j) = (w1, o1)
              /\ (forall c p s, ~ In (Invoked c p s) o1)
              /\ shutDown (this w1) = false
              /\ isProcessing (this w1) = false
              /\ autoProcessOnMemoryLimit (this w1) = false
              /\ batchSize (this w1) = batchSize (this w)
              /\ jobs (this w1)
                 = jobs (this w) ++ [(randomUUID (uuidCalls w), j)]
              /\ currentMemory (this w1)
                 = match calculateMemory byteLength_json [j] with
                   | Some size => (currentMemory (this w) + size)%Q
                   | None => currentMemory (this w)
                   end
              /\ pending w1 = pending w
              /\ nextCall w1 = nextCall w
              /\ uuidCalls w1 = S (uuidCalls w)).
    { destruct (calculateMemory byteLength_json [j]) as [size|] eqn:Hser.
      - pose proof (submit_step w j Hdown Hser) as Hstep. cbv zeta in Hstep.
        rewrite Hbusy, Hauto, (JsMapFacts.set_fresh _ _ _ Hfresh) in Hstep.
        assert (Hlt : (batchSize (this w)
                       <=? Z.of_nat (JsMap.size
                              (jobs (this w) ++ [(randomUUID (uuidCalls w), j)])))%Z
                      = false).
        { apply Z.leb_gt. unfold JsMap.size in *. rewrite length_app.
          simpl in *. lia. }
        rewrite Hlt in Hstep. cbv beta iota delta [orb andb] in Hstep.
        rewrite Hstep. eexists _, _. split; [reflexivity|].
        open_world w. simpl in Hdown, Hbusy, Hauto. subst. fields.
        repeat split. intros c p s [H|[]]. discriminate.
      - pose proof (submit_throws w j Hdown Hser) as Hstep.
        rewrite (JsMapFacts.set_fresh _ _ _ Hfresh) in Hstep.
        rewrite Hstep. eexists _, _. split; [reflexivity|].
        open_world w. simpl in Hdown, Hbusy, Hauto. subst. fields.
        repeat split. intros c p s [H|[]]. discriminate. }
    destruct Hstep as (w1 & o1 & Hstep & Ho1 & Hd1 & Hb1 & Ha1 & Hs1 & Hj1
                       & Hm1 & Hp1 & Hc1 & Hu1).
    cbn [map steps]. rewrite Hstep.
    specialize (IH w1 Hd1 Hb1 Ha1).
    rewrite Hs1, Hj1, Hu1 in IH.
    destruct IH as (Hj & Hc & Hm & Hp & Hn' & Hn).
    { unfold JsMap.size in *. rewrite length_app. simpl in *. lia. }
    { unfold JsMap.keys in *. rewrite map_app, <- app_assoc. exact Hnew. }
    destruct (steps w1 (map (@CallSubmit T Reason) js)) as [w2 o2].
    cbn [fst snd] in *.
    rewrite Hj, Hc, Hm, Hp, Hn', Hm1, Hp1, Hc1. unfold JsMap.size.
    rewrite length_app, <- app_assoc.
    simpl. repeat split; try lia; auto.
    intros c p s H. apply in_app_or in H.
    destruct H as [H|H]; [exact (Ho1 _ _ _ H)|exact (Hn _ _ _ H)].
Qed.

(** X8: with the memory trigger off, submissions that keep the pending
    count below [batchSize] accumulate: on a batcher that is neither shut
    down nor processing, after submitting the jobs [js] (the generated
    identifiers being new and distinct) [jobs] holds the earlier entries
    followed by the new jobs in submission order, each under its
    identifier, [jobCount] is the number of pending jobs, [currentMemory]
    has grown by the size of each job measured on its own (a job
    [JSON.stringify] throws on is stored and counted all the same and adds
    nothing), and [batchProcessor] has not been called. *)
Theorem submits_accumulate (js : list T) w :
  shutDown (this w) = false ->
  isProcessing (this w) = false ->
  autoProcessOnMemoryLimit (this w) = false ->
  (Z.of_nat (JsMap.size (jobs (this w)) + List.length js) < batchSize (this w))%Z ->
  NoDup (JsMap.keys (jobs (this w))
         ++ map randomUUID (seq (uuidCalls w) (List.length js))) ->
  jobs (this (fst (steps w (map (@CallSubmit T Reason) js))))
    = jobs (this w)
      ++ combine (map randomUUID (seq (uuidCalls w) (List.length js))) js
  /\ jobCount (this (fst (steps w (map (@CallSubmit T Reason) js))))
       = JsMap.size (jobs (this w)) + List.length js
  /\ currentMemory (this (fst (steps w (map (@CallSubmit T Reason) js))))
       = fold_left (fun m j => match calculateMemory byteLength_json [j] with
                               | Some size => (m + size)%Q
                               | None => m
                               end)
                   js (currentMemory (this w))
  /\ (forall c p s,
        ~ In (Invoked c p s) (snd (steps w (map (@CallSubmit T Reason) js)))).
Proof.
  intros Hdown Hbusy Hauto Hsize Hnew.
  destruct (accumulate_run js w Hdown Hbusy Hauto Hsize Hnew)
    as (H1 & H2 & H3 & _ & _ & H4).
  auto.
Qed.

(** *** More on the batch hand-over *)

(** X9: [forceProcess] leaves nothing pending: afterwards [jobs] is empty,
    [currentMemory] is 0, [timeoutId] is [null], [jobCount] is 0 and
    [jobStatus] answers NOT_FOUND for every identifier, also for the jobs
    just handed over.  With nothing pending it resolves at once without
    calling [batchProcessor], and it clears [isProcessing] even when an
    earlier call is still pending; with jobs pending it calls
    [batchProcessor] once on all of them and sets [isProcessing], whether or
    not a call was already pending. *)
Theorem forceProcess_hands_over w :
  jobs (this (fst (step w CallForceProcess))) = JsMap.empty
  /\ currentMemory (this (fst (step w CallForceProcess))) = 0%Q
  /\ timeoutId (this (fst (step w CallForceProcess))) = None
  /\ jobCount (this (fst (step w CallForceProcess))) = 0
  /\ (forall id, jobStatus (this (fst (step w CallForceProcess))) id
                 = mkAck NOT_FOUND None id)
  /\ (jobs (this w) = JsMap.empty ->
      snd (step w CallForceProcess) = [ForceProcessResolved]
      /\ pending (fst (step w CallForceProcess)) = pending w
      /\ isProcessing (this (fst (step w CallForceProcess))) = false)
  /\ (jobs (this w) <> JsMap.empty ->
      snd (step w CallForceProcess)
        = [Invoked (nextCall w) (batchProcessor (this w)) (jobs (this w))]
      /\ pending (fst (step w CallForceProcess))
           = pending w ++ [(nextCall w, mkCall (jobs (this w)) FromForceProcess None)]
      /\ isProcessing (this (fst (step w CallForceProcess))) = true).
Proof.
  unfold step, forceProcess.
  destruct (jobs (this w)) as [|j js] eqn:Hj.
  - rewrite (processJobs_empty _ _ Hj). open_world w. simpl in Hj. subst.
    unfold jobCount, jobStatus. fields.
    repeat split; try reflexivity; contradiction.
  - rewrite processJobs_nonempty by (rewrite Hj; discriminate).
    rewrite Hj. open_world w. unfold jobCount, jobStatus. fields.
    repeat split; try reflexivity;
      match goal with H : _ :: _ = JsMap.empty |- _ => discriminate H end.
Qed.

(** X10: when the armed timer expires with jobs pending, [batchProcessor]
    is called once on all of them; [jobs] is then empty, [currentMemory] 0,
    [isProcessing] set and [timeoutId] [null], and no timer is left armed
    where the armed timer was the one [timeoutId] held.  The expiry of a
    timer that is not armed (a cancelled one) does nothing. *)
Theorem timer_expiry_fires w (h : nat) :
  (find_id h (timers w) = None -> step w (TimerExpires h) = (w, []))
  /\ (forall d, find_id h (timers w) = Some d ->
      jobs (this w) <> JsMap.empty ->
      snd (step w (TimerExpires h))
        = [Invoked (nextCall w) (batchProcessor (this w)) (jobs (this w))]
      /\ pending (fst (step w (TimerExpires h)))
           = pending w ++ [(nextCall w, mkCall (jobs (this w)) FromTimer None)]
      /\ jobs (this (fst (step w (TimerExpires h)))) = JsMap.empty
      /\ currentMemory (this (fst (step w (TimerExpires h)))) = 0%Q
      /\ isProcessing (this (fst (step w (TimerExpires h)))) = true
      /\ timeoutId (this (fst (step w (TimerExpires h)))) = None
      /\ (timer_owned w -> timers (fst (step w (TimerExpires h))) = [])).
Proof.
  split.
  - intros Hnone. unfold step. rewrite Hnone. reflexivity.
  - intros d Hd Hne. unfold step. rewrite Hd.
    rewrite processJobs_nonempty by exact Hne. fields.
    split; [reflexivity|]. split; [reflexivity|].
    split; [open_world w; reflexivity|]. split; [open_world w; reflexivity|].
    split; [open_world w; reflexivity|]. split; [open_world w; reflexivity|].
    intros Hown. apply cleared_timers. intros x Hx. apply Hown.
    unfold drop in Hx. apply filter_In in Hx. tauto.
Qed.

Lemma get_recorded (snapshot : JsMap.t T) (rs : list (JobResult T)) :
  forall (fj : JsMap.t (option T)) (id : string),
    JsMap.get id
      (fold_left (fun fj r => JsMap.set (jr_jobId r)
                                (JsMap.get (jr_jobId r) snapshot) fj) rs fj)
    = if existsb (fun r => String.eqb id (jr_jobId r)) rs
      then Some (JsMap.get id snapshot)
      else JsMap.get id fj.
Proof.
  induction rs as [|r rs IH]; intros fj id; simpl; [reflexivity|].
  rewrite IH. destruct (existsb _ rs); [now rewrite orb_true_r|].
  rewrite orb_false_r. destruct (String.eqb_spec id (jr_jobId r)).
  - subst. apply JsMapFacts.get_set_same.
  - now apply JsMapFacts.get_set_other.
Qed.

(** X11: when a [batchProcessor] promise is fulfilled (and [processJobs]
    reacts to it, which it does once per call), [finishedJobs] gets one
    entry per identifier named in the results: the job the batch held
    under that identifier (what the result record carries in [result] is
    not used), or [undefined] when the batch has no such identifier.  The
    entries of all other identifiers are as before; jobs of the batch the
    results do not name are not recorded. *)
Theorem fulfilment_records_results w c (call : Call T Reason)
        (rs : list (JobResult T)) :
  find_id c (pending w) = Some call ->
  call_settled call = None ->
  forall id,
    (In id (map (@jr_jobId T) rs) ->
     JsMap.get id (finishedJobs (this (fst (step w (ProcessorSettles c (Fulfilled rs))))))
       = Some (JsMap.get id (call_snapshot call)))
    /\ (~ In id (map (@jr_jobId T) rs) ->
        JsMap.get id (finishedJobs (this (fst (step w (ProcessorSettles c (Fulfilled rs))))))
          = JsMap.get id (finishedJobs (this w))).
Proof.
  intros Hc Hs id. rewrite step_settles, Hc, Hs.
  cbn [fst this].
  assert (E' : forall v (b : YaMicroBatcher T Processor),
            finishedJobs (set_finishedJobs v b) = v) by (intros v []; reflexivity).
  rewrite E', get_recorded. cbn [this finishedJobs].
  destruct (existsb (fun r => String.eqb id (jr_jobId r)) rs) eqn:Ex.
  - split; [reflexivity|]. intros Hn. exfalso. apply Hn.
    apply existsb_exists in Ex. destruct Ex as (r & Hr & Er).
    apply String.eqb_eq in Er. subst. now apply in_map.
  - split; [|reflexivity]. intros Hin. exfalso.
    apply in_map_iff in Hin. destruct Hin as (r & Er & Hr).
    assert (existsb (fun r => String.eqb id (jr_jobId r)) rs = true).
    { apply existsb_exists. exists r. split; [exact Hr|].
      subst. apply String.eqb_refl. }
    congruence.
Qed.

(** X12: [finishedJobs] is written by nothing but the fulfilment of a
    [batchProcessor] promise: no call of a public method, no timer expiry,
    no rejection and no resumption of [processJobs] changes it; in
    particular a rejected batch leaves no trace there. *)
Theorem finishedJobs_only_written_on_fulfilment w e :
  match e with
  | ProcessorSettles _ (Fulfilled _) => True
  | _ => finishedJobs (this (fst (step w e))) = finishedJobs (this w)
  end.
Proof.
  assert (Hpj : forall k w0,
            finishedJobs (this (fst (run (processJobs (Reason := Reason) k) w0)))
            = finishedJobs (this w0)).
  { intros k w0. destruct (jobs (this w0)) as [|j js] eqn:Hj.
    - rewrite (processJobs_empty _ _ Hj). open_world w0. reflexivity.
    - rewrite processJobs_nonempty by (rewrite Hj; discriminate).
      open_world w0. reflexivity. }
  destruct e as [job| | | |h|c r|c].
  - destruct (shutDown (this w)) eqn:Hdown.
    { now rewrite (submit_when_shut_down _ _ Hdown). }
    rewrite (submit_unfold _ _ Hdown).
    destruct (calculateMemory byteLength_json [job]) as [size|];
      [|open_world w; reflexivity].
    cbv zeta. destruct (isProcessing (this w)); [open_world w; reflexivity|].
    match goal with |- context [if ?c then _ else _] => destruct c end.
    + rewrite Hpj. open_world w. reflexivity.
    + open_world w. reflexivity.
  - unfold step. rewrite shutdown_unfold. cbv zeta.
    destruct (Nat.ltb 0 (JsMap.size (jobs (this w)))).
    + rewrite Hpj. open_world w. reflexivity.
    + open_world w. reflexivity.
  - rewrite stop_unfold. open_world w. reflexivity.
  - apply Hpj.
  - unfold step. destruct (find_id h (timers w)); [|reflexivity].
    rewrite Hpj. reflexivity.
  - destruct r as [rs|err]; [exact I|].
    rewrite step_settles. destruct (find_id c (pending w)) as [call|];
      [|reflexivity].
    destruct (call_settled call); reflexivity.
  - rewrite step_resumes. destruct (find_id c (pending w)) as [call|];
      [|reflexivity].
    destruct (call_settled call) as [[err|]|]; try reflexivity;
      open_world w; reflexivity.
Qed.

(** *** What never changes *)

Lemma configuration_processJobs (k : origin) w :
  configuration (this (fst (run (processJobs (Reason := Reason) k) w)))
  = configuration (this w).
Proof.
  destruct (jobs (this w)) as [|j js] eqn:Hj.
  - rewrite (processJobs_empty _ _ Hj). open_world w. reflexivity.
  - rewrite processJobs_nonempty by (rewrite Hj; discriminate).
    open_world w. reflexivity.
Qed.

Lemma configuration_step w e :
  configuration (this (fst (step w e))) = configuration (this w).
Proof.
  destruct e as [job| | | |h|c r|c].
  - destruct (shutDown (this w)) eqn:Hdown.
    { now rewrite (submit_when_shut_down _ _ Hdown). }
    rewrite (submit_unfold _ _ Hdown).
    destruct (calculateMemory byteLength_json [job]) as [size|];
      [|open_world w; reflexivity].
    cbv zeta. destruct (isProcessing (this w)); [open_world w; reflexivity|].
    match goal with |- context [if ?c then _ else _] => destruct c end.
    + rewrite configuration_processJobs. open_world w. reflexivity.
    + open_world w. reflexivity.
  - unfold step. rewrite shutdown_unfold. cbv zeta.
    destruct (Nat.ltb 0 (JsMap.size (jobs (this w)))).
    + rewrite configuration_processJobs. open_world w. reflexivity.
    + open_world w. reflexivity.
  - rewrite stop_unfold. open_world w. reflexivity.
  - apply configuration_processJobs.
  - unfold step. destruct (find_id h (timers w)); [|reflexivity].
    rewrite configuration_processJobs. reflexivity.
  - rewrite step_settles. destruct (find_id c (pending w)) as [call|];
      [|reflexivity].
    destruct (call_settled call); [reflexivity|].
    destruct r as [rs|err]; open_world w; reflexivity.
  - rewrite step_resumes. destruct (find_id c (pending w)) as [call|];
      [|reflexivity].
    destruct (call_settled call) as [[err|]|]; try reflexivity;
      open_world w; reflexivity.
Qed.

Lemma configuration_steps es : forall w,
  configuration (this (fst (steps w es))) = configuration (this w).
Proof.
  induction es as [|e es IH]; intros w; simpl; [reflexivity|].
  pose proof (configuration_step w e) as H1. specialize (IH (fst (step w e))).
  destruct (step w e) as [w1 o1]. simpl in *.
  destruct (steps w1 es) as [w2 o2]. simpl in *. congruence.
Qed.

(** X13: the configuration is fixed at construction: whatever is called
    and whatever happens, [batchProcessor], [batchSize], [batchTimeout],
    [memoryLimit], [autoProcessOnMemoryLimit] and [returnAck] keep the
    values the constructor gave them. *)
Theorem configuration_never_changes es w :
  configuration (this (fst (steps w es))) = configuration (this w).
Proof.
  exact (configuration_steps es w).
Qed.

Lemma shut_down_step w e :
  shutDown (this w) = true ->
  shutDown (this (fst (step w e))) = true
  /\ (forall a, ~ In (SubmitResolved a) (snd (step w e)))
  /\ (jobs (this (fst (step w e))) = jobs (this w)
      \/ jobs (this (fst (step w e))) = JsMap.empty).
Proof.
  intros Hdown.
  assert (Hpj : forall k w0,
            shutDown (this w0) = true ->
            shutDown (this (fst (run (processJobs (Reason := Reason) k) w0))) = true
            /\ (forall a, ~ In (SubmitResolved a)
                            (snd (run (processJobs (Reason := Reason) k) w0)))
            /\ jobs (this (fst (run (processJobs (Reason := Reason) k) w0)))
               = JsMap.empty).
  { intros k w0 Hd. destruct (jobs (this w0)) as [|j js] eqn:Hj.
    - rewrite (processJobs_empty _ _ Hj). open_world w0. simpl in Hd, Hj.
      subst. fields. repeat split.
      intros a. destruct k; simpl; intros H; try contradiction;
        destruct H as [H|[]]; discriminate.
    - rewrite processJobs_nonempty by (rewrite Hj; discriminate).
      open_world w0. simpl in Hd. subst. fields. repeat split.
      intros a [H|[]]. discriminate. }
  destruct e as [job| | | |h|c r|c].
  - rewrite (submit_when_shut_down _ _ Hdown). simpl. repeat split; auto.
    intros a [H|[]]. discriminate.
  - unfold step. rewrite shutdown_unfold. cbv zeta.
    destruct (Nat.ltb 0 (JsMap.size (jobs (this w)))).
    + destruct (Hpj FromShutdown
                  (mkWorld (set_shutDown true (this w))
                     (match timeoutId (this w) with
                      | Some h => drop h (timers w)
                      | None => timers w
                      end)
                     (pending w) (nextTimer w) (nextCall w) (uuidCalls w)))
        as (H1 & H2 & H3); [open_world w; reflexivity|].
      repeat split; auto.
    + open_world w. fields. repeat split; auto.
      intros a [H|[]]. discriminate.
  - rewrite stop_unfold. open_world w. fields. split; [reflexivity|].
    split; [|right; reflexivity].
    destruct tid; intros a [H|[]]; discriminate.
  - destruct (Hpj FromForceProcess w Hdown) as (H1 & H2 & H3).
    repeat split; auto.
  - unfold step. destruct (find_id h (timers w)).
    + destruct (Hpj FromTimer
                  (mkWorld (this w) (drop h (timers w)) (pending w)
                           (nextTimer w) (nextCall w) (uuidCalls w)) Hdown)
        as (H1 & H2 & H3).
      repeat split; auto.
    + simpl. repeat split; auto.
  - rewrite step_settles. destruct (find_id c (pending w)) as [call|];
      [|simpl; repeat split; auto].
    destruct (call_settled call); [simpl; repeat split; auto|].
    destruct r as [rs|err]; open_world w; simpl in Hdown; subst; fields;
      repeat split; auto.
  - rewrite step_resumes. destruct (find_id c (pending w)) as [call|];
      [|simpl; repeat split; auto].
    destruct (call_settled call) as [[err|]|]; [| |simpl; repeat split; auto].
    + fields. repeat split; auto.
      intros a. destruct (call_origin call); intros [H|[]]; discriminate.
    + open_world w. simpl in Hdown. subst. fields. repeat split; auto.
      intros a. destruct (call_origin call); simpl; intros H;
        try contradiction; destruct H as [H|[]]; discriminate.
Qed.

(** X14: shut down is final.  Once [shutDown] is set (by [shutdown] or
    [stop]) nothing clears it: whatever is called and whatever happens
    afterwards, the flag stays set, no [submit] is accepted, and [jobs] is
    either as it was or empty, never larger. *)
Theorem shut_down_is_final es : forall w,
  shutDown (this w) = true ->
  shutDown (this (fst (steps w es))) = true
  /\ (forall a, ~ In (SubmitResolved a) (snd (steps w es)))
  /\ (jobs (this (fst (steps w es))) = jobs (this w)
      \/ jobs (this (fst (steps w es))) = JsMap.empty).
Proof.
  induction es as [|e es IH]; intros w Hdown; simpl; [auto|].
  destruct (shut_down_step w e Hdown) as (H1 & H2 & H3).
  specialize (IH (fst (step w e)) H1).
  destruct (step w e) as [w1 o1]. simpl in *.
  destruct (steps w1 es) as [w2 o2]. simpl in *.
  destruct IH as (I1 & I2 & I3).
  split; [exact I1|]. split.
  - intros a H. apply in_app_or in H. destruct H as [H|H];
      [exact (H2 _ H)|exact (I2 _ H)].
  - destruct I3 as [I3|I3]; [|now right].
    rewrite I3. exact H3.
Qed.

Lemma invoked_by_processJobs (k : origin) w c p s :
  In (Invoked c p s) (snd (run (processJobs (Reason := Reason) k) w)) ->
  s = jobs (this w) /\ s <> JsMap.empty
  /\ c = nextCall w /\ p = batchProcessor (this w)
  /\ jobs (this (fst (run (processJobs (Reason := Reason) k) w))) = JsMap.empty
  /\ isProcessing (this (fst (run (processJobs (Reason := Reason) k) w))) = true.
Proof.
  destruct (jobs (this w)) as [|j js] eqn:Hj.
  - rewrite (processJobs_empty _ _ Hj). cbn [snd].
    destruct k; simpl; intros H; try contradiction;
      destruct H as [H|[]]; discriminate.
  - rewrite processJobs_nonempty by (rewrite Hj; discriminate).
    cbn [snd fst]. intros [H|[]]. injection H as <- <- <-.
    rewrite Hj. open_world w. repeat split. discriminate.
Qed.

(** X15: [batchProcessor] is never called with an empty map.  Whatever
    starts the batch (a submission, the timer, [forceProcess], [shutdown]),
    the call gets every job pending at that moment (with the job being
    submitted, when a submission starts it), at least one, and right after
    the call is made [jobs] is empty and [isProcessing] is set. *)
Theorem batchProcessor_gets_all_pending w e c p s :
  In (Invoked c p s) (snd (step w e)) ->
  s <> JsMap.empty
  /\ c = nextCall w
  /\ p = batchProcessor (this w)
  /\ jobs (this (fst (step w e))) = JsMap.empty
  /\ isProcessing (this (fst (step w e))) = true
  /\ (s = jobs (this w)
      \/ exists job, e = CallSubmit job
                     /\ s = JsMap.set (randomUUID (uuidCalls w)) job
                                      (jobs (this w))).
Proof.
  destruct e as [job| | | |h|c' r|c'].
  - destruct (shutDown (this w)) eqn:Hdown.
    { rewrite (submit_when_shut_down _ _ Hdown). intros [H|[]]. discriminate. }
    destruct (calculateMemory byteLength_json [job]) as [size|] eqn:Hser;
      [|rewrite (submit_throws _ _ Hdown Hser); intros [H|[]]; discriminate].
    rewrite (submit_step _ _ Hdown Hser). cbv zeta.
    destruct (isProcessing (this w)).
    { intros [H|[]]. discriminate. }
    match goal with |- context [if ?c then _ else _] => destruct c end.
    + intros [H|[H|[]]]; [|discriminate]. injection H as <- <- <-.
      open_world w. fields. repeat split.
      * apply JsMapFacts.set_not_empty.
      * right. eexists. split; reflexivity.
    + intros [H|[]]. discriminate.
  - unfold step. rewrite shutdown_unfold. cbv zeta.
    destruct (Nat.ltb 0 (JsMap.size (jobs (this w)))).
    + intros H. apply invoked_by_processJobs in H.
      destruct H as (Hs & Hne & Hc & Hp & Hj & Hb). subst s c p.
      open_world w.
      split; [exact Hne|]. split; [reflexivity|]. split; [reflexivity|].
      split; [exact Hj|]. split; [exact Hb|]. left. reflexivity.
    + intros [H|[]]. discriminate.
  - unfold step. open_world w. destruct tid; intros [H|[]]; discriminate.
  - intros H. apply invoked_by_processJobs in H.
    destruct H as (Hs & Hne & Hc & Hp & Hj & Hb). repeat split; auto.
  - unfold step. destruct (find_id h (timers w)); [|intros []].
    intros H. apply invoked_by_processJobs in H.
    destruct H as (Hs & Hne & Hc & Hp & Hj & Hb). repeat split; auto.
  - rewrite step_settles. destruct (find_id c' (pending w)) as [call|];
      [|intros []].
    destruct (call_settled call); intros [].
  - rewrite step_resumes. destruct (find_id c' (pending w)) as [call|];
      [|intros []].
    destruct (call_settled call) as [[err|]|]; [| |intros []]; cbn [snd].
    + destruct (call_origin call); intros [H|[]]; discriminate.
    + destruct (call_origin call); simpl; intros H; try contradiction;
        destruct H as [H|[]]; discriminate.
Qed.

(** *** The timer *)

Lemma one_timer_owned w : one_timer w -> timer_owned w.
Proof.
  intros [H|(h & H & E)] x Hx; rewrite H in Hx; [contradiction|].
  destruct Hx as [<-|[]]. exact E.
Qed.

Lemma one_timer_step w e : one_timer w -> one_timer (fst (step w e)).
Proof.
  intros Hone. pose proof (one_timer_owned Hone) as Hown.
  pose proof (@cleared_timers _ _ Hown) as Hclear.
  destruct e as [job| | | |h|c r|c].
  - destruct (shutDown (this w)) eqn:Hdown.
    { rewrite (submit_when_shut_down _ _ Hdown). exact Hone. }
    rewrite (submit_unfold _ _ Hdown).
    destruct (calculateMemory byteLength_json [job]) as [size|];
      [|open_world w; exact Hone].
    cbv zeta. destruct (isProcessing (this w)).
    { open_world w. exact Hone. }
    match goal with |- context [if ?c then _ else _] => destruct c end.
    + left. rewrite processJobs_timers. cbn [timers this].
      open_world w. exact Hclear.
    + right. exists (nextTimer w). rewrite Hclear. open_world w.
      split; reflexivity.
  - left. unfold step. rewrite shutdown_unfold. cbv zeta. rewrite Hclear.
    destruct (Nat.ltb 0 (JsMap.size (jobs (this w)))); [|reflexivity].
    rewrite processJobs_timers. cbn [timers this].
    open_world w. simpl. now destruct tid.
  - left. rewrite stop_unfold. exact Hclear.
  - left. unfold step, forceProcess. rewrite processJobs_timers. exact Hclear.
  - unfold step. destruct (find_id h (timers w)); [|exact Hone].
    left. rewrite processJobs_timers. cbn [timers this].
    apply cleared_timers. intros x Hx. apply Hown.
    unfold drop in Hx. apply filter_In in Hx. tauto.
  - rewrite step_settles.
    destruct (find_id c (pending w)) as [call|]; [|exact Hone].
    destruct (call_settled call); [exact Hone|].
    destruct r as [rs|err]; open_world w; exact Hone.
  - rewrite step_resumes.
    destruct (find_id c (pending w)) as [call|]; [|exact Hone].
    destruct (call_settled call) as [[err|]|]; [| |exact Hone];
      open_world w; exact Hone.
Qed.

Lemma one_timer_steps es : forall w, one_timer w -> one_timer (fst (steps w es)).
Proof.
  induction es as [|e es IH]; intros w Hw; simpl; [exact Hw|].
  pose proof (one_timer_step e Hw) as H1. specialize (IH _ H1).
  destruct (step w e) as [w1 o1]. simpl in *.
  destruct (steps w1 es) as [w2 o2]. exact IH.
Qed.

(** X16: a batcher never has two timers armed.  Whatever is called and
    whatever happens after construction, either no timer is armed, or
    exactly one is: the one [timeoutId] holds, armed with delay
    [batchTimeout]. *)
Theorem at_most_one_timer (b : YaMicroBatcher T Processor) es :
  one_timer (fst (steps (boot b) es)).
Proof.
  apply one_timer_steps. left. reflexivity.
Qed.

(** *** Memory *)

(** X17: [isMemoryLimitReached] compares the serialised size of the jobs
    now pending with [memoryLimit] megabytes of 1048576 bytes: it answers
    [true] exactly when that size is at least [memoryLimit * 1048576]
    bytes, and [false] exactly when it is less.  It measures [jobs] afresh
    and does not read [currentMemory].  It throws exactly when the pending
    jobs cannot be serialised. *)
Theorem isMemoryLimitReached_in_bytes (b : YaMicroBatcher T Processor) :
  (isMemoryLimitReached byteLength_json b = Some true
   <-> exists n, byteLength_json (JsMap.values (jobs b)) = Some n
                 /\ (memoryLimit b * 1048576 <= inject_Z n)%Q)
  /\ (isMemoryLimitReached byteLength_json b = Some false
      <-> exists n, byteLength_json (JsMap.values (jobs b)) = Some n
                    /\ (inject_Z n < memoryLimit b * 1048576)%Q)
  /\ (isMemoryLimitReached byteLength_json b = None
      <-> byteLength_json (JsMap.values (jobs b)) = None).
Proof.
  unfold isMemoryLimitReached, utils_isMemoryLimitReached, calculateMemory.
  destruct (byteLength_json (JsMap.values (jobs b))) as [n|].
  - assert (E : forall l : Q,
              (l <= inject_Z n / 1024 / 1024 <-> l * 1048576 <= inject_Z n)%Q).
    { intros [p q]. unfold Qle, Qdiv, Qmult, Qinv, inject_Z. simpl. lia. }
    split; [|split].
    + split.
      * intros H. injection H as H. apply Qle_bool_iff, E in H.
        exists n. now split.
      * intros (m & Hm & H). injection Hm as <-. f_equal.
        now apply Qle_bool_iff, E.
    + split.
      * intros H. injection H as H. exists n. split; [reflexivity|].
        apply Qnot_le_lt. intros Hle. apply E, Qle_bool_iff in Hle.
        congruence.
      * intros (m & Hm & H). injection Hm as <-. f_equal.
        destruct (Qle_bool (memoryLimit b) (inject_Z n / 1024 / 1024)) eqn:Hb;
          [|reflexivity].
        apply Qle_bool_iff, E in Hb. exfalso. exact (Qlt_not_le _ _ H Hb).
    + split; [discriminate|discriminate].
  - split; [|split].
    + split; [discriminate|]. intros (m & Hm & _). discriminate.
    + split; [discriminate|]. intros (m & Hm & _). discriminate.
    + split; reflexivity.
Qed.

(** *** From submission to hand-over *)

Lemma steps_app es1 es2 w :
  steps w (es1 ++ es2) =
    (fst (steps (fst (steps w es1)) es2),
     snd (steps w es1) ++ snd (steps (fst (steps w es1)) es2)).
Proof.
  revert w. induction es1 as [|e es1 IH]; intros w; simpl.
  - now destruct (steps w es2).
  - destruct (step w e) as [w1 o1]. rewrite IH.
    destruct (steps w1 es1) as [w2 o2]. simpl.
    destruct (steps w2 es2) as [w3 o3]. simpl. now rewrite app_assoc.
Qed.

(** X18: graceful shutdown, end to end.  On a new batcher with the memory
    trigger off, when fewer than [batchSize] jobs are submitted (under
    distinct identifiers) and [shutdown] is called, [batchProcessor] is
    called exactly once, by [shutdown], on all the submitted jobs in the
    order of their submission, each under the identifier it was given;
    [jobs] is empty and the batcher is shut down. *)
Theorem shutdown_hands_over_in_submission_order
        (cfg : YaMicroBatcherConfig Processor) (b : YaMicroBatcher T Processor)
        (js : list T) :
  constructor cfg = Returns b ->
  autoProcessOnMemoryLimit b = false ->
  js <> [] ->
  (Z.of_nat (List.length js) < batchSize b)%Z ->
  NoDup (map randomUUID (seq 0 (List.length js))) ->
  exists acks,
    snd (steps (boot b) (map (@CallSubmit T Reason) js ++ [CallShutdown]))
      = acks ++ [Invoked 0 (batchProcessor b)
                   (combine (map randomUUID (seq 0 (List.length js))) js)]
    /\ (forall c p s, ~ In (Invoked c p s) acks)
    /\ jobs (this (fst (steps (boot b)
                          (map (@CallSubmit T Reason) js ++ [CallShutdown]))))
       = JsMap.empty
    /\ shutDown (this (fst (steps (boot b)
                             (map (@CallSubmit T Reason) js ++ [CallShutdown]))))
       = true.
Proof.
  intros Hc Hauto Hne Hsize Hnew.
  assert (Hinit : jobs b = JsMap.empty /\ shutDown b = false
                  /\ isProcessing b = false).
  { unfold constructor in Hc. destruct (cfg_batchProcessor cfg); [|discriminate].
    injection Hc as <-. repeat split. }
  destruct Hinit as (Hj0 & Hd0 & Hb0).
  destruct (accumulate_run js (boot b)) as (Hj & _ & _ & _ & Hnc & Hno);
    try assumption.
  { cbn [boot this]. rewrite Hj0. exact Hsize. }
  { cbn [boot this uuidCalls]. rewrite Hj0. exact Hnew. }
  pose proof (configuration_steps (map (@CallSubmit T Reason) js) (boot b)) as Hcfg.
  set (w2 := fst (steps (boot b) (map (@CallSubmit T Reason) js))) in *.
  assert (Hbp : batchProcessor (this w2) = batchProcessor b).
  { unfold configuration in Hcfg. cbn [boot this] in Hcfg. congruence. }
  cbn [boot this uuidCalls nextCall] in Hj, Hnc. rewrite Hj0 in Hj.
  cbn [app JsMap.empty] in Hj.
  assert (Hjne : jobs (this w2) <> JsMap.empty).
  { rewrite Hj. destruct js; [contradiction|discriminate]. }
  exists (snd (steps (boot b) (map (@CallSubmit T Reason) js))).
  rewrite steps_app. fold w2. cbn [fst snd steps].
  assert (Hsd : step w2 CallShutdown =
            (fst (step w2 CallShutdown),
             [Invoked 0 (batchProcessor b)
                (combine (map randomUUID (seq 0 (List.length js))) js)])
          /\ jobs (this (fst (step w2 CallShutdown))) = JsMap.empty
          /\ shutDown (this (fst (step w2 CallShutdown))) = true).
  { unfold step. rewrite shutdown_unfold. cbv zeta.
    assert (Hpos : Nat.ltb 0 (JsMap.size (jobs (this w2))) = true).
    { apply Nat.ltb_lt. destruct (jobs (this w2)); [contradiction|simpl; lia]. }
    rewrite Hpos.
    rewrite processJobs_nonempty
      by (destruct w2 as [[] ? ? ? ? ?]; exact Hjne).
    rewrite <- Hj, <- Hbp, <- Hnc.
    destruct w2 as [[] ? ? ? ? ?]. repeat split. }
  destruct Hsd as (Hstep & Hje & Hde). rewrite Hstep. cbn [fst snd].
  rewrite app_nil_r. repeat split; auto.
Qed.

End MachineFacts.

(** X15 at the submission that fills a batch of two. *)
Lemma batchProcessor_gets_all_pending_witness :
  In (Invoked 0 tt [("a", "x"); ("b", "y")]%string)
     (snd (@step string unit string Scenario.bytes Scenario.uuid
             (fst (@step string unit string Scenario.bytes Scenario.uuid
                     (Scenario.fresh 2) (CallSubmit "x"%string)))
             (CallSubmit "y"%string)))
  /\ jobs (this (fst (@step string unit string Scenario.bytes Scenario.uuid
                        (fst (@step string unit string Scenario.bytes Scenario.uuid
                                (Scenario.fresh 2) (CallSubmit "x"%string)))
                        (CallSubmit "y"%string))))
     = JsMap.empty.
Proof.
  assert (H : In (Invoked 0 tt [("a", "x"); ("b", "y")]%string)
                 (snd (@step string unit string Scenario.bytes Scenario.uuid
                         (fst (@step string unit string Scenario.bytes Scenario.uuid
                                 (Scenario.fresh 2) (CallSubmit "x"%string)))
                         (CallSubmit "y"%string))))
    by (vm_compute; left; reflexivity).
  split; [exact H|].
  destruct (batchProcessor_gets_all_pending _ _ _ _ _ _ _ H)
    as (_ & _ & _ & Hj & _).
  exact Hj.
Defined.

(** ** Runs of the concrete instance *)

Import Scenario.
Local Open Scope string_scope.

(** *** The test suite of the repository, replayed *)

(** 'should add a job' *)
Example test_add_a_job :
  jobCount (this tested) = 0
  /\ jobCount (this (fst (Scenario.step tested (CallSubmit "job1")))) = 1.
Proof. vm_compute. split; reflexivity. Qed.

(** 'should force process all jobs': [forceProcess] is not awaited, the
    count is read while the batch is being processed. *)
Example test_force_process :
  let w2 := fst (Scenario.steps tested [CallSubmit "job1"; CallSubmit "job2"]) in
  jobCount (this w2) = 2
  /\ jobCount (this (fst (Scenario.step w2 CallForceProcess))) = 0.
Proof. vm_compute. split; reflexivity. Qed.

(** 'should return Ask for the submitted job' *)
Example test_ack :
  snd (Scenario.step tested (CallSubmit "job1"))
    = [SubmitResolved (Some (mkAck SUBMITTED None "a"))]
  /\ jobCount (this (fst (Scenario.step tested (CallSubmit "job1")))) = 1.
Proof. vm_compute. split; reflexivity. Qed.

(** 'should shutdown the micro-batcher' *)
Example test_shutdown :
  let w1 := fst (Scenario.step tested (CallSubmit "job1")) in
  let w3 := fst (Scenario.steps w1
                   [CallShutdown;
                    ProcessorSettles 0 (Fulfilled [processed "a" "job1"]);
                    ProcessJobsResumes 0]) in
  jobCount (this w1) = 1
  /\ snd (Scenario.steps w1
            [CallShutdown; ProcessorSettles 0 (Fulfilled [processed "a" "job1"]);
             ProcessJobsResumes 0])
       = [Invoked 0 tt [("a", "job1")]; ShutdownResolved]
  /\ jobCount (this w3) = 0
  /\ snd (Scenario.step w3 (CallSubmit "job2"))
       = [SubmitRejected "MicroBatcher is shutdown"].
Proof. vm_compute. repeat split; reflexivity. Qed.

(** 'should stop the micro-batcher' *)
Example test_stop :
  let w1 := fst (Scenario.step tested (CallSubmit "job1")) in
  let w2 := fst (Scenario.step w1 CallStop) in
  jobCount (this w1) = 1
  /\ snd (Scenario.step w1 CallStop) = [StopResolved]
  /\ jobCount (this w2) = 0
  /\ snd (Scenario.step w2 (CallSubmit "job2"))
       = [SubmitRejected "MicroBatcher is shutdown"].
Proof. vm_compute. repeat split; reflexivity. Qed.

(** 'should return false cause memory limit is not reached' *)
Example test_memory_limit_not_reached :
  isMemoryLimitReached bytes
    (this (fst (Scenario.step tested (CallSubmit "job1")))) = Some false.
Proof. vm_compute. reflexivity. Qed.

(** 'should process jobs when batch size is reached' *)
Example test_batch_size :
  let w2 := fst (Scenario.steps tested [CallSubmit "job1"; CallSubmit "job2"]) in
  let run3 := Scenario.steps w2
                [CallSubmit "job3";
                 ProcessorSettles 0 (Fulfilled [processed "a" "job1";
                                                processed "b" "job2";
                                                processed "c" "job3"]);
                 ProcessJobsResumes 0] in
  jobCount (this w2) = 2
  /\ In (Invoked 0 tt [("a", "job1"); ("b", "job2"); ("c", "job3")]) (snd run3)
  /\ jobCount (this (fst run3)) = 0.
Proof.
  vm_compute. split; [reflexivity|]. split; [left; reflexivity|reflexivity].
Qed.

(** *** The claims the code does not meet *)

(** C1 on the code.  [batchSize] is 2.  Jobs x and y are submitted; the
    second submission starts a batch on [{a: x, b: y}].  While that call is
    pending, job z is accepted and stored under c in the new [jobs] map.
    When the call is fulfilled and [processJobs] resumes,
    [this.jobs.clear()] empties that map: z is gone from [jobs], was not in
    the batch, is not in [finishedJobs], and a later [forceProcess] and
    [shutdown] find nothing to hand to [batchProcessor]. *)
Theorem C1_job_submitted_during_fire_is_dropped :
  let w3 := fst (Scenario.steps (fresh 2)
                   [CallSubmit "x"; CallSubmit "y"; CallSubmit "z"]) in
  let w4 := fst (Scenario.steps w3
                   [ProcessorSettles 0 (Fulfilled [processed "a" "x";
                                                   processed "b" "y"]);
                    ProcessJobsResumes 0]) in
  pending w3 = [(0, mkCall [("a", "x"); ("b", "y")] FromSchedule None)]
  /\ jobs (this w3) = [("c", "z")]
  /\ jobStatus (this w3) "c" = mkAck SUBMITTED None "c"
  /\ jobs (this w4) = []
  /\ jobStatus (this w4) "c" = mkAck NOT_FOUND None "c"
  /\ finishedJobs (this w4) = [("a", Some "x"); ("b", Some "y")]
  /\ snd (Scenario.steps w4 [CallForceProcess; CallShutdown])
       = [ForceProcessResolved; ShutdownResolved].
Proof. vm_compute. repeat split. Qed.

(** C2 on the code.  One job is pending and [forceProcess] is called; the
    [batchProcessor] promise is rejected and [processJobs] is resumed by
    the failure.  The rejection reaches the caller of [forceProcess], but
    [isProcessing] is still [true] with no call pending, and from then on
    trigger evaluation does nothing: three more submissions with
    [batchSize] 3 start no batch and arm no timer. *)
Theorem C2_isProcessing_stays_set_after_rejection :
  let w2 := fst (Scenario.steps (fresh 3) [CallSubmit "x"; CallForceProcess]) in
  let w3 := fst (Scenario.steps w2 [ProcessorSettles 0 (Rejected "boom");
                                    ProcessJobsResumes 0]) in
  let w6 := fst (Scenario.steps w3
                   [CallSubmit "p"; CallSubmit "q"; CallSubmit "r"]) in
  pending w2 = [(0, mkCall [("a", "x")] FromForceProcess None)]
  /\ snd (Scenario.steps w2 [ProcessorSettles 0 (Rejected "boom");
                             ProcessJobsResumes 0])
       = [ForceProcessRejected "boom"]
  /\ pending w3 = []
  /\ isProcessing (this w3) = true
  /\ JsMap.size (jobs (this w6)) = 3
  /\ pending w6 = [] /\ timers w6 = []
  /\ isProcessing (this w6) = true.
Proof. vm_compute. repeat split. Qed.

(** C5 on the code.  With [batchSize] 3 one job is submitted, which arms
    timer 0; the timer expires and starts a batch; the [batchProcessor]
    promise is rejected.  Nothing is logged: the rejection is left
    unhandled.  With [batchSize] 1 the same job starts the batch from
    [processingShedule] and the same rejection is logged. *)
Theorem C5_timer_fire_rejection_is_unhandled :
  let w2 := fst (Scenario.steps (fresh 3) [CallSubmit "x"; TimerExpires 0]) in
  let v1 := fst (Scenario.step (fresh 1) (CallSubmit "x")) in
  pending w2 = [(0, mkCall [("a", "x")] FromTimer None)]
  /\ snd (Scenario.steps w2 [ProcessorSettles 0 (Rejected "boom");
                             ProcessJobsResumes 0])
       = [UnhandledRejection "boom"]
  /\ pending v1 = [(0, mkCall [("a", "x")] FromSchedule None)]
  /\ snd (Scenario.steps v1 [ProcessorSettles 0 (Rejected "boom");
                             ProcessJobsResumes 0])
       = [ConsoleError "boom"].
Proof. vm_compute. repeat split. Qed.

(** C10 on the code.  [batchSize] is 2 and [returnAck] is set.  Jobs x and
    y are submitted; the second submission starts a batch on
    [{a: x, b: y}].  Job z is submitted next: the batcher is not shut down,
    the submission starts no batch (one job is pending, below [batchSize],
    and the memory trigger is off), z is stored under c and the promise of
    [submit] is resolved with [{status: SUBMITTED, jobId: c}].  The caller
    awaiting that promise does not run at once: it is resumed three jobs
    of the job queue later.  With a processor whose promise is fulfilled
    when it returns (the one of the test suite) the reaction of
    [processJobs] and then the rest of [processJobs] run before the caller
    does, and [this.jobs.clear()] removes z: when the caller asks,
    [jobStatus(ack.jobId)] answers [NOT_FOUND].  The order of the jobs is
    the one the job queue gives for the turn
    [submit(x); submit(y); await submit(z)]. *)
Theorem C10_acknowledged_job_not_found_when_caller_resumes :
  let w2 := fst (Scenario.steps (fresh 2) [CallSubmit "x"; CallSubmit "y"]) in
  let w3 := fst (Scenario.step w2 (CallSubmit "z")) in
  let settles := ProcessorSettles 0 (Fulfilled [processed "a" "x";
                                                processed "b" "y"]) in
  let w5 := fst (Scenario.steps w3 [settles; ProcessJobsResumes 0]) in
  shutDown (this w2) = false
  /\ returnAck (this w2) = true
  /\ autoProcessOnMemoryLimit (this w2) = false
  /\ snd (Scenario.step w2 (CallSubmit "z"))
       = [SubmitResolved (Some (mkAck SUBMITTED None "c"))]
  /\ (Z.of_nat (JsMap.size (jobs (this w3))) < batchSize (this w3))%Z
  /\ JsMap.get "c" (jobs (this w3)) = Some "z"
  /\ jobStatus (this w3) "c" = mkAck SUBMITTED None "c"
  /\ turn bytes uuid processor 2 0 (fresh 2) ["x"; "y"; "z"]
       = (w3, [AdoptReturned 0; Transition settles;
               AdoptReturned 1; AdoptReturned 2])
  /\ until_caller_resumes bytes uuid 9 2 w3
         [AdoptReturned 0; Transition settles; AdoptReturned 1; AdoptReturned 2]
       = Some (w5, [AdoptReturned 0; Transition settles;
                    AdoptReturned 1; AdoptReturned 2;
                    SettleSubmit 0; Transition (ProcessJobsResumes 0);
                    SettleSubmit 1; SettleSubmit 2])
  /\ shutDown (this w5) = false
  /\ jobStatus (this w5) "c" = mkAck NOT_FOUND None "c".
Proof. vm_compute. repeat split. Qed.

(** C3 as stated fails: [forceProcess] does not look at [isProcessing].
    After [submit x; forceProcess; submit y; forceProcess], with neither
    promise settled, two [batchProcessor] calls are pending; the flag was
    set when the second one started. *)
Lemma C3_counterexample :
  let es := [CallSubmit "x"; CallForceProcess; CallSubmit "y"] in
  isProcessing (this (fst (Scenario.steps (fresh 3) es))) = true
  /\ pending (fst (Scenario.steps (fresh 3) (es ++ [CallForceProcess])))
       = [(0, mkCall [("a", "x")] FromForceProcess None);
          (1, mkCall [("b", "y")] FromForceProcess None)]
  /\ ~ (forall es',
          List.length (pending (fst (Scenario.steps (fresh 3) es'))) <= 1).
Proof.
  split; [reflexivity|]. split; [reflexivity|].
  intros H.
  specialize (H [CallSubmit "x"; CallForceProcess;
                 CallSubmit "y"; CallForceProcess]).
  vm_compute in H. lia.
Qed.

(** The settlement of the promise of [batchProcessor] does not end the
    batch.  With [batchSize] 1, job x starts call 0, which is fulfilled;
    before the rest of that [processJobs] runs, job y is submitted and
    [forceProcess] is called, at a moment when no promise of
    [batchProcessor] is unsettled: it starts call 1.  Then the first
    [processJobs] resumes and resets [isProcessing] while call 1 is
    unsettled, and the next submission starts call 2 beside it. *)
Example settled_batch_is_still_outstanding :
  let es := [CallSubmit "x";
             ProcessorSettles 0 (Fulfilled [processed "a" "x"]);
             CallSubmit "y"] in
  unsettled (fst (Scenario.steps (fresh 1) es)) = []
  /\ pending (fst (Scenario.steps (fresh 1) es))
       = [(0, mkCall [("a", "x")] FromSchedule (Some None))]
  /\ unsettled (fst (Scenario.steps (fresh 1)
                       (es ++ [CallForceProcess; ProcessJobsResumes 0;
                               CallSubmit "z"])%list))
       = [(1, mkCall [("b", "y")] FromForceProcess None);
          (2, mkCall [("c", "z")] FromSchedule None)].
Proof. vm_compute. repeat split. Qed.

(** C3 at a run with a size-triggered batch, its fulfilment, then
    [forceProcess] and [shutdown]. *)
Lemma C3_single_flight_without_overlapping_calls_witness :
  let es := [CallSubmit "x"; CallSubmit "y"; CallSubmit "z";
             ProcessorSettles 0 (Fulfilled []); ProcessJobsResumes 0;
             CallSubmit "u"; CallForceProcess;
             ProcessorSettles 1 (Rejected "boom"); ProcessJobsResumes 1;
             CallShutdown] in
  calls_do_not_overlap bytes uuid (fresh 3) es = true
  /\ List.length (pending (fst (Scenario.steps (fresh 3) es))) <= 1
  /\ List.length (unsettled (fst (Scenario.steps (fresh 3) es))) <= 1.
Proof.
  split; [reflexivity|].
  apply (@C3_single_flight_without_overlapping_calls
           string unit string bytes uuid (make (Some 3%Z) (Some 1000%Z))).
  reflexivity.
Defined.

(** C6 at a batcher with two pending jobs and at one with none. *)
Lemma C6_shutdown_drains_witness :
  let w2 := fst (Scenario.steps (fresh 3) [CallSubmit "x"; CallSubmit "y"]) in
  (0 < JsMap.size (jobs (this w2))
   /\ find_id (nextCall w2) (pending w2) = None
   /\ snd (Scenario.step w2 CallShutdown)
        = [Invoked 0 tt [("a", "x"); ("b", "y")]]
   /\ snd (Scenario.step (fst (Scenario.step w2 CallShutdown))
                         (ProcessorSettles 0 (Fulfilled [])))
        = []
   /\ snd (Scenario.step
             (fst (Scenario.step (fst (Scenario.step w2 CallShutdown))
                                 (ProcessorSettles 0 (Fulfilled []))))
             (ProcessJobsResumes 0))
        = [ShutdownResolved])
  /\ (JsMap.size (jobs (this (fresh 3))) = 0
      /\ snd (Scenario.step (fresh 3) CallShutdown) = [ShutdownResolved]).
Proof.
  split.
  - destruct (@C6_shutdown_drains string unit string bytes uuid
                (fst (Scenario.steps (fresh 3) [CallSubmit "x"; CallSubmit "y"])))
      as (_ & _ & _ & _ & Hfull).
    assert (Hn : 0 < JsMap.size
                       (jobs (this (fst (Scenario.steps (fresh 3)
                                           [CallSubmit "x"; CallSubmit "y"])))))
      by (vm_compute; lia).
    destruct (Hfull Hn) as (Hout & _ & _ & Hsettle).
    split; [exact Hn|]. split; [reflexivity|]. split; [exact Hout|].
    exact (Hsettle eq_refl (Fulfilled [])).
  - destruct (@C6_shutdown_drains string unit string bytes uuid (fresh 3))
      as (_ & _ & _ & Hnone & _).
    split; [reflexivity|]. exact (proj1 (Hnone eq_refl)).
Defined.

(** C8 at a batcher stopped with one job pending. *)
Lemma C8_submit_after_shutdown_rejected_witness :
  let w := fst (Scenario.steps (fresh 3) [CallSubmit "x"; CallStop]) in
  shutDown (this w) = true
  /\ Scenario.step w (CallSubmit "y")
       = (w, [SubmitRejected "MicroBatcher is shutdown"]).
Proof.
  split; [reflexivity|].
  apply (@C8_submit_after_shutdown_rejected string unit string bytes uuid).
  reflexivity.
Defined.

(** *** The further properties at concrete inputs *)

(** X1 at a supplied [batchSize] of 5000. *)
Lemma constructed_batchSize_bounds_witness :
  constructor (Scenario.config (Some 5000%Z) (Some 1000%Z))
    = Returns (make (Some 5000%Z) (Some 1000%Z))
  /\ (batchSize (make (Some 5000%Z) (Some 1000%Z)) <= 1000)%Z
  /\ batchSize (make (Some 5000%Z) (Some 1000%Z)) <> 0%Z.
Proof.
  split; [reflexivity|].
  apply (@constructed_batchSize_bounds string unit
           (Scenario.config (Some 5000%Z) (Some 1000%Z))).
  reflexivity.
Defined.

(** X2 at a supplied [batchTimeout] of 250. *)
Lemma constructed_batchTimeout_values_witness :
  constructor (Scenario.config (Some 3%Z) (Some 250%Z))
    = Returns (make (Some 3%Z) (Some 250%Z))
  /\ ((batchTimeout (make (Some 3%Z) (Some 250%Z)) = None
       /\ cfg_batchTimeout (Scenario.config (Some 3%Z) (Some 250%Z)) = None)
      \/ (batchTimeout (make (Some 3%Z) (Some 250%Z)) = Some 0%Z
          /\ cfg_batchTimeout (Scenario.config (Some 3%Z) (Some 250%Z)) = Some 0%Z)
      \/ (batchTimeout (make (Some 3%Z) (Some 250%Z)) = Some 100000%Z
          /\ exists n, cfg_batchTimeout (Scenario.config (Some 3%Z) (Some 250%Z))
                       = Some n /\ n <> 0%Z)).
Proof.
  split; [reflexivity|].
  apply (@constructed_batchTimeout_values string unit
           (Scenario.config (Some 3%Z) (Some 250%Z))).
  reflexivity.
Defined.

(** X3 at the configuration of the test suite, [memoryLimit: 10]. *)
Lemma constructed_memoryLimit_bounds_witness :
  (memoryLimit (this tested) <= 1024)%Q /\ ~ (memoryLimit (this tested) == 0)%Q.
Proof.
  destruct (@constructed_memoryLimit_bounds string unit
              (mkConfig (Some 3%Z) (Some 1000%Z) (Some tt) (Some true)
                        (Some 10%Q) (Some true))
              (this tested) eq_refl) as (H1 & H2 & _).
  split; [exact H1|exact H2].
Defined.

(** X4 at a submission made while a forced batch is being processed. *)
Lemma submit_while_processing_only_stores_witness :
  let w := fst (Scenario.steps (fresh 3) [CallSubmit "x"; CallForceProcess]) in
  shutDown (this w) = false /\ isProcessing (this w) = true
  /\ snd (Scenario.step w (CallSubmit "y"))
       = [SubmitResolved (Some (mkAck SUBMITTED None "b"))]
  /\ pending (fst (Scenario.step w (CallSubmit "y"))) = pending w.
Proof.
  split; [reflexivity|]. split; [reflexivity|].
  destruct (@submit_while_processing_only_stores string unit string bytes uuid
              (fst (Scenario.steps (fresh 3) [CallSubmit "x"; CallForceProcess]))
              "y" _ eq_refl eq_refl eq_refl) as (H1 & _ & _ & _ & _ & H2 & _).
  split; [exact H1|exact H2].
Defined.

(** X5 at the second submission to a new batcher with [batchSize] 3. *)
Lemma submit_rearms_timer_witness :
  let w := fst (Scenario.step (fresh 3) (CallSubmit "x")) in
  timers w = [(0, Some 100000%Z)]
  /\ timers (fst (Scenario.step w (CallSubmit "y"))) = [(1, Some 100000%Z)].
Proof.
  split; [reflexivity|].
  apply (@submit_rearms_timer string unit string bytes uuid
           (fst (Scenario.step (fresh 3) (CallSubmit "x"))) "y"
           (inject_Z 5 / 1024 / 1024)%Q);
    try reflexivity.
  intros x Hx. vm_compute in Hx. destruct Hx as [<-|[]]. reflexivity.
Defined.

(** X7 at the first submission to a new batcher. *)
Lemma submit_accepts_witness :
  uuidCalls (fst (Scenario.step (fresh 3) (CallSubmit "x"))) = 1
  /\ In (SubmitResolved (Some (mkAck SUBMITTED None "a")))
        (snd (Scenario.step (fresh 3) (CallSubmit "x"))).
Proof.
  destruct (@submit_accepts string unit string bytes uuid (fresh 3) "x" eq_refl)
    as (H1 & H2 & _).
  split; [exact H1|].
  exact (proj1 (H2 _ eq_refl)).
Defined.

(** X8 at three submissions to a new batcher with [batchSize] 5. *)
Lemma submits_accumulate_witness :
  jobs (this (fst (Scenario.steps (fresh 5)
                     [CallSubmit "x"; CallSubmit "y"; CallSubmit "z"])))
    = [("a", "x"); ("b", "y"); ("c", "z")]
  /\ jobCount (this (fst (Scenario.steps (fresh 5)
                            [CallSubmit "x"; CallSubmit "y"; CallSubmit "z"])))
     = 3.
Proof.
  destruct (@submits_accumulate string unit string bytes uuid
              ["x"; "y"; "z"] (fresh 5)) as (H1 & H2 & _);
    try reflexivity.
  - vm_compute. repeat constructor; simpl; intuition discriminate.
  - split; [exact H1|exact H2].
Defined.

(** X11 at a batch of two jobs of which the results name one, and an
    identifier the batch does not have. *)
Lemma fulfilment_records_results_witness :
  let w := fst (Scenario.steps (fresh 2) [CallSubmit "x"; CallSubmit "y"]) in
  let rs := [processed "a" "other"; processed "q" "x"] in
  find_id 0 (pending w)
    = Some (mkCall [("a", "x"); ("b", "y")] FromSchedule None)
  /\ JsMap.get "a" (finishedJobs
                      (this (fst (Scenario.step w (ProcessorSettles 0 (Fulfilled rs))))))
     = Some (Some "x")
  /\ JsMap.get "q" (finishedJobs
                      (this (fst (Scenario.step w (ProcessorSettles 0 (Fulfilled rs))))))
     = Some None
  /\ JsMap.get "b" (finishedJobs
                      (this (fst (Scenario.step w (ProcessorSettles 0 (Fulfilled rs))))))
     = None.
Proof.
  split; [reflexivity|].
  pose proof (@fulfilment_records_results string unit string bytes uuid
                (fst (Scenario.steps (fresh 2) [CallSubmit "x"; CallSubmit "y"]))
                0 (mkCall [("a", "x"); ("b", "y")] FromSchedule None)
                [processed "a" "other"; processed "q" "x"] eq_refl eq_refl) as H.
  split; [apply (H "a"); simpl; auto|].
  split; [apply (H "q"); simpl; auto|].
  apply (H "b"). simpl. intuition discriminate.
Defined.

(** X14 at a batcher stopped with a job pending, then used further. *)
Lemma shut_down_is_final_witness :
  let w := fst (Scenario.steps (fresh 3) [CallSubmit "x"; CallStop]) in
  let es := [CallSubmit "y"; CallForceProcess; TimerExpires 0; CallShutdown] in
  shutDown (this w) = true
  /\ shutDown (this (fst (Scenario.steps w es))) = true
  /\ forall a, ~ In (SubmitResolved a) (snd (Scenario.steps w es)).
Proof.
  split; [reflexivity|].
  destruct (@shut_down_is_final string unit string bytes uuid
              [CallSubmit "y"; CallForceProcess; TimerExpires 0; CallShutdown]
              (fst (Scenario.steps (fresh 3) [CallSubmit "x"; CallStop]))
              eq_refl) as (H1 & H2 & _).
  split; [exact H1|exact H2].
Defined.

(** X18 at two jobs submitted to a new batcher with [batchSize] 5. *)
Lemma shutdown_hands_over_in_submission_order_witness :
  exists acks,
    snd (Scenario.steps (fresh 5) [CallSubmit "x"; CallSubmit "y"; CallShutdown])
      = (acks ++ [Invoked 0 tt [("a", "x"); ("b", "y")]])%list
    /\ forall c p s, ~ In (Invoked c p s) acks.
Proof.
  destruct (@shutdown_hands_over_in_submission_order
              string unit string bytes uuid
              (Scenario.config (Some 5%Z) (Some 1000%Z))
              (make (Some 5%Z) (Some 1000%Z)) ["x"; "y"])
    as (acks & H1 & H2 & _); try reflexivity.
  - discriminate.
  - vm_compute. repeat constructor; simpl; intuition discriminate.
  - exists acks. split; [exact H1|exact H2].
Defined.
